(** * Glasgow XC9500 applet: address translation and JTAG programming engine

    A shallow embedding of [software/glasgow/applet/jtag/xc9500.py].
    Python integers are [Z]; [//] and [%] with a positive divisor are
    [Z.div] and [Z.modulo] (both floor).  *)

From Stdlib Require Import String ZArith List Lia Bool.
From Stdlib.Strings Require Import Byte.
Import ListNotations.
Open Scope Z_scope.

(** ** Address translation *)

Definition BLOCK_FUSES : Z := 432.
Definition BLOCK_WORDS : Z := 15.
Definition GROUP_WORDS : Z := 5.

Definition jed_to_device_address (jed_address : Z) : Z :=
  let block_num := jed_address / BLOCK_FUSES in
  let block_bit := jed_address mod BLOCK_FUSES in
  let word_address := block_num * 15 in
  if block_bit <? 9 * 32
  then word_address + block_bit / 32
  else word_address + (9 + (block_bit - 9 * 32) / 24).

Definition bitstream_to_device_address (word_address : Z) : Z :=
  let block_num := word_address / BLOCK_WORDS in
  let block_off := word_address mod BLOCK_WORDS in
  32 * block_num + 8 * (block_off / GROUP_WORDS) + block_off mod GROUP_WORDS.

(* The part of the device address that lies inside a block: below 32,
   and it determines the offset of the word inside the block. *)
Definition block_local (off : Z) : Z := 8 * (off / 5) + off mod 5.

(** ** Registers and instructions

    The register layouts, the instruction codes and the device database
    live in [arch/xilinx/xc9500.py], [arch/jtag.py] and
    [database/xilinx/xc9500.py]; the applet only names them.  The fields
    the applet reads and writes are kept as records, the instruction codes
    as an enumeration, and the serialisation and the database are taken
    as parameters (class [Arch] below).  A field that a constructor call
    leaves out is zero. *)

Definition bitarray : Type := list bool.

Inductive ir : Type :=
| IR_IDCODE | IR_USERCODE
| IR_ISPEN | IR_ISPEX
| IR_FBULK
| IR_FPGM | IR_FPGMI
| IR_FVFY | IR_FVFYI.

Module DR_IDCODE.
Record t : Type := mk { mfg_id : Z; part_id : Z; version : Z }.
End DR_IDCODE.

Module DR_ISADDRESS.
Record t : Type := mk { valid : bool; strobe : bool; address : Z }.
End DR_ISADDRESS.

Module DR_ISDATA.
Record t : Type := mk { valid : bool; strobe : bool; data : Z }.
End DR_ISDATA.

Module DR_ISCONFIGURATION.
Record t : Type := mk { valid : bool; strobe : bool; address : Z; data : Z }.
End DR_ISCONFIGURATION.

Record Device : Type := mkDevice {
  name : string;
  bitstream_words : Z;
  usercode_low : Z;
  usercode_high : Z
}.

Class Arch : Type := {
  idcode_from_bitarray : bitarray -> DR_IDCODE.t;
  isaddr_to_bitarray : DR_ISADDRESS.t -> bitarray;
  isaddr_from_bitarray : bitarray -> DR_ISADDRESS.t;
  isdata_to_bitarray : DR_ISDATA.t -> bitarray;
  isdata_from_bitarray : bitarray -> DR_ISDATA.t;
  isconf_to_bitarray : DR_ISCONFIGURATION.t -> bitarray;
  isconf_from_bitarray : bitarray -> DR_ISCONFIGURATION.t;
  (* [devices] is indexed by (mfg_id, part_id); an unknown pair gives None *)
  devices : Z -> Z -> option Device
}.

(** ** The TAP interface ([self.lower])

    The applet calls five methods on the TAP interface it is given.  The
    interface is a state machine of any kind: a request moves it to a new
    state and is answered by shifted-out bits or by a transport failure. *)

Inductive request : Type :=
| Rq_write_ir (code : ir)
| Rq_read_dr (count : Z)
| Rq_write_dr (bits : bitarray)
| Rq_exchange_dr (bits : bitarray)
| Rq_run_test_idle (count : Z).

Inductive reply : Type :=
| Done (bits : bitarray)
| Fault.

Class TAP : Type := {
  tap : Type;
  lower : request -> tap -> reply * tap
}.

(** ** Exceptions, observable events and the monad of the applet *)

Inductive applet_error : Type :=
| unknown_device (idcode : DR_IDCODE.t)
| bulk_erase_failed (isaddr : DR_ISADDRESS.t)
| incorrect_bit_file_size (words : nat) (device_name : string)
| verification_failed (offset : Z).

Inductive exn : Type :=
| GlasgowAppletError (e : applet_error)
| AssertionError
| struct_error
| TransportError.

Inductive warning : Type :=
| program_word_failed (offset : Z) (isconf : DR_ISCONFIGURATION.t)
| program_autoinc_word_failed (offset : Z) (isdata : DR_ISDATA.t).

(* What a run leaves behind, in program order: the requests made to the
   TAP with their replies, the warnings given to the logger, and the
   bytes written to the output file.  Debug-level logging is left out. *)
Inductive event : Type :=
| Tap (rq : request) (rp : reply)
| Warn (w : warning)
| FileWrite (data : list byte).

Inductive outcome (A : Type) : Type :=
| Ok (a : A)
| Raise (e : exn)
| Diverge.
Arguments Ok {A} a.
Arguments Raise {A} e.
Arguments Diverge {A}.

Definition requests (evs : list event) : list request :=
  flat_map (fun ev => match ev with Tap rq _ => [rq] | _ => [] end) evs.

Definition warnings (evs : list event) : list warning :=
  flat_map (fun ev => match ev with Warn w => [w] | _ => [] end) evs.

(* The bits shifted out by the exchanges of a run. *)
Definition exchanged (evs : list event) : list bitarray :=
  flat_map (fun ev => match ev with
                      | Tap (Rq_exchange_dr _) (Done bits) => [bits]
                      | _ => []
                      end) evs.

Definition range (count : Z) : list Z :=
  map Z.of_nat (seq 0 (Z.to_nat count)).

Definition enumerate_from {A : Type} (start : nat) (xs : list A) : list (Z * A) :=
  combine (map Z.of_nat (seq start (length xs))) xs.

Definition enumerate {A : Type} (xs : list A) : list (Z * A) :=
  enumerate_from 0 xs.

Definition is_empty {A : Type} (xs : list A) : bool :=
  match xs with [] => true | _ => false end.

(* struct.pack("<L", word) and struct.unpack("<L", data) *)
Definition byte_of_Z (z : Z) : byte :=
  match Byte.of_N (Z.to_N (z mod 256)) with Some b => b | None => x00 end.

Definition Z_of_byte (b : byte) : Z := Z.of_N (Byte.to_N b).

Definition pack_L (word : Z) : outcome (list byte) :=
  if (0 <=? word) && (word <? 2 ^ 32)
  then Ok [byte_of_Z word; byte_of_Z (word / 2 ^ 8);
           byte_of_Z (word / 2 ^ 16); byte_of_Z (word / 2 ^ 24)]
  else Raise struct_error.

Definition unpack_L (b0 b1 b2 b3 : byte) : Z :=
  Z_of_byte b0 + 2 ^ 8 * Z_of_byte b1 + 2 ^ 16 * Z_of_byte b2 + 2 ^ 24 * Z_of_byte b3.

(* The loop that reads a .bit file four bytes at a time; a trailing
   chunk of one to three bytes makes struct.unpack raise. *)
Fixpoint read_words (data : list byte) (words : list Z) : outcome (list Z) :=
  match data with
  | [] => Ok words
  | b0 :: b1 :: b2 :: b3 :: rest => read_words rest (words ++ [unpack_L b0 b1 b2 b3])
  | _ => Raise struct_error
  end.

Inductive Operation : Type := read_bit | program_bit | verify_bit | erase.

Definition Operation_eqb (a b : Operation) : bool :=
  match a, b with
  | read_bit, read_bit | program_bit, program_bit
  | verify_bit, verify_bit | erase, erase => true
  | _, _ => false
  end.

(* args.operation is None when no subcommand was given. *)
Definition operation_is (o : option Operation) (op : Operation) : bool :=
  match o with Some o' => Operation_eqb o' op | None => false end.

Record Args : Type := mkArgs {
  operation : option Operation;
  slow : bool;
  bit_file : list byte   (* contents of BIT-FILE when it is opened for reading *)
}.

Section Applet.

Context {arch : Arch} {iface : TAP}.

Definition M (A : Type) : Type := tap -> outcome A * tap * list event.

Definition ret {A : Type} (a : A) : M A := fun t => (Ok a, t, []).

Definition bind {A B : Type} (m : M A) (k : A -> M B) : M B :=
  fun t =>
    match m t with
    | (Ok a, t1, evs1) =>
        match k a t1 with
        | (out, t2, evs2) => (out, t2, evs1 ++ evs2)
        end
    | (Raise e, t1, evs1) => (Raise e, t1, evs1)
    | (Diverge, t1, evs1) => (Diverge, t1, evs1)
    end.

Definition raise {A : Type} (e : exn) : M A := fun t => (Raise e, t, []).

Definition diverge {A : Type} : M A := fun t => (Diverge, t, []).

Definition lift {A : Type} (o : outcome A) : M A := fun t => (o, t, []).

(* try: body finally: final.  The final block runs on normal completion
   and on an exception; an exception of its own replaces the pending one.
   A body that never returns never reaches it. *)
Definition try_finally {A : Type} (body : M A) (final : M unit) : M A :=
  fun t =>
    match body t with
    | (Diverge, t1, evs1) => (Diverge, t1, evs1)
    | (out, t1, evs1) =>
        match final t1 with
        | (Ok _, t2, evs2) => (out, t2, evs1 ++ evs2)
        | (Raise e, t2, evs2) => (Raise e, t2, evs1 ++ evs2)
        | (Diverge, t2, evs2) => (Diverge, t2, evs1 ++ evs2)
        end
    end.

Definition call (rq : request) : M bitarray :=
  fun t =>
    match lower rq t with
    | (Done bits, t1) => (Ok bits, t1, [Tap rq (Done bits)])
    | (Fault, t1) => (Raise TransportError, t1, [Tap rq Fault])
    end.

Definition emit (ev : event) : M unit := fun t => (Ok tt, t, [ev]).

End Applet.

Declare Scope applet_scope.
Delimit Scope applet_scope with applet.
Notation "x <- m ;; k" := (bind m (fun x => k))
  (at level 61, m at next level, right associativity) : applet_scope.
Notation "m ;; k" := (bind m (fun _ => k))
  (at level 61, right associativity) : applet_scope.
Open Scope applet_scope.

Section Engine.

Context {arch : Arch} {iface : TAP}.

Definition when (c : bool) (m : M unit) : M unit := if c then m else ret tt.

Definition assert_ (c : bool) : M unit := if c then ret tt else raise AssertionError.

Fixpoint for_ {A : Type} (xs : list A) (body : A -> M unit) : M unit :=
  match xs with
  | [] => ret tt
  | x :: rest => body x ;; for_ rest body
  end.

(* A for loop that updates a local variable. *)
Fixpoint for_acc {A S : Type} (xs : list A) (s : S) (body : S -> A -> M S) : M S :=
  match xs with
  | [] => ret s
  | x :: rest => s1 <- body s x ;; for_acc rest s1 body
  end.

Definition write_ir (code : ir) : M unit := call (Rq_write_ir code) ;; ret tt.
Definition read_dr (count : Z) : M bitarray := call (Rq_read_dr count).
Definition write_dr (bits : bitarray) : M unit := call (Rq_write_dr bits) ;; ret tt.
Definition exchange_dr (bits : bitarray) : M bitarray := call (Rq_exchange_dr bits).
Definition run_test_idle (count : Z) : M unit := call (Rq_run_test_idle count) ;; ret tt.

(** *** class JTAGXC9500Interface *)

Definition identify : M (DR_IDCODE.t * option Device) :=
  write_ir IR_IDCODE ;;
  idcode_bits <- read_dr 32 ;;
  let idcode := idcode_from_bitarray idcode_bits in
  let device := devices (DR_IDCODE.mfg_id idcode) (DR_IDCODE.part_id idcode) in
  ret (idcode, device).

(* The result is [usercode_bits.tobytes()]; it is only logged. *)
Definition read_usercode : M bitarray :=
  write_ir IR_USERCODE ;;
  usercode_bits <- read_dr 32 ;;
  ret usercode_bits.

Definition programming_enable : M unit := write_ir IR_ISPEN.

Definition programming_disable : M unit := write_ir IR_ISPEX.

Definition _fvfy_word (address : Z) (words : list Z) (offset : Z) : M (list Z) :=
  let dev_address := bitstream_to_device_address (address + offset + 1) in
  let isconf := DR_ISCONFIGURATION.mk true true dev_address 0 in
  isconf_bits <- exchange_dr (firstn 50 (isconf_to_bitarray isconf)) ;;
  let isconf := isconf_from_bitarray isconf_bits in
  ret (words ++ [DR_ISCONFIGURATION.data isconf]).

Definition _fvfy (address count : Z) : M (list Z) :=
  write_ir IR_FVFY ;;
  let dev_address := bitstream_to_device_address address in
  let isconf := DR_ISCONFIGURATION.mk true true dev_address 0 in
  write_dr (firstn 50 (isconf_to_bitarray isconf)) ;;
  for_acc (range count) [] (_fvfy_word address).

(* while index < count: ...   The loop has no bound of its own; [fuel]
   bounds the number of iterations the model follows. *)
Fixpoint _fvfyi_loop (fuel : nat) (count : Z) (words : list Z) (index : Z)
  : M (list Z) :=
  if index <? count then
    match fuel with
    | O => diverge
    | S fuel' =>
        isdata_bits <- read_dr 34 ;;
        let isdata := isdata_from_bitarray isdata_bits in
        if DR_ISDATA.valid isdata
        then _fvfyi_loop fuel' count (words ++ [DR_ISDATA.data isdata]) (index + 1)
        else _fvfyi_loop fuel' count words index
    end
  else ret words.

Definition _fvfyi (fuel : nat) (count : Z) : M (list Z) :=
  write_ir IR_FVFYI ;;
  _fvfyi_loop fuel count [] 0.

Definition read (fuel : nat) (address count : Z) (fast : bool) : M (list Z) :=
  if fast then
    _fvfy address 0 ;;
    _fvfyi fuel count
  else
    _fvfy address count.

Definition bulk_erase : M unit :=
  write_ir IR_FBULK ;;
  let isaddr := DR_ISADDRESS.mk true true 65535 in
  write_dr (firstn 18 (isaddr_to_bitarray isaddr)) ;;
  run_test_idle 200000 ;;
  isaddr_bits <- read_dr 18 ;;
  let isaddr := isaddr_from_bitarray isaddr_bits in
  if negb (DR_ISADDRESS.valid isaddr && negb (DR_ISADDRESS.strobe isaddr))
  then raise (GlasgowAppletError (bulk_erase_failed isaddr))
  else ret tt.

Definition _fpgm_word (address : Z) (item : Z * Z) : M unit :=
  let '(offset, word) := item in
  let dev_address := bitstream_to_device_address (address + offset) in
  let strobe := offset mod BLOCK_WORDS =? BLOCK_WORDS - 1 in
  let isconf := DR_ISCONFIGURATION.mk true strobe dev_address word in
  write_dr (firstn 50 (isconf_to_bitarray isconf)) ;;
  when strobe (
    run_test_idle 20000 ;;
    let isconf := DR_ISCONFIGURATION.mk false false dev_address 0 in
    isconf_bits <- exchange_dr (firstn 50 (isconf_to_bitarray isconf)) ;;
    let isconf := isconf_from_bitarray isconf_bits in
    when (negb (DR_ISCONFIGURATION.valid isconf
                && negb (DR_ISCONFIGURATION.strobe isconf)))
      (emit (Warn (program_word_failed offset isconf)))).

Definition _fpgm (address : Z) (words : list Z) : M unit :=
  write_ir IR_FPGM ;;
  for_ (enumerate words) (_fpgm_word address) ;;
  when (is_empty words) (
    let dev_address := bitstream_to_device_address address in
    let isconf := DR_ISCONFIGURATION.mk true false dev_address 0 in
    write_dr (firstn 50 (isconf_to_bitarray isconf))).

Definition _fpgmi_word (item : Z * Z) : M unit :=
  let '(offset, word) := item in
  let strobe := offset mod BLOCK_WORDS =? BLOCK_WORDS - 1 in
  let isdata := DR_ISDATA.mk true strobe word in
  write_dr (firstn 34 (isdata_to_bitarray isdata)) ;;
  when strobe (
    run_test_idle 20000 ;;
    let isdata := DR_ISDATA.mk false false 0 in
    isdata_bits <- exchange_dr (firstn 34 (isdata_to_bitarray isdata)) ;;
    let isdata := isdata_from_bitarray isdata_bits in
    when (negb (DR_ISDATA.valid isdata && negb (DR_ISDATA.strobe isdata)))
      (emit (Warn (program_autoinc_word_failed offset isdata)))).

Definition _fpgmi (words : list Z) : M unit :=
  write_ir IR_FPGMI ;;
  for_ (enumerate words) _fpgmi_word.

Definition program (address : Z) (words : list Z) (fast : bool) : M unit :=
  assert_ ((address mod BLOCK_WORDS =? 0)
           && (Z.of_nat (length words) mod BLOCK_WORDS =? 0)) ;;
  if fast then
    _fpgm 0 (firstn 15 words) ;;
    _fpgmi (skipn 15 words)
  else
    _fpgm address words.

(** *** class JTAGXC9500Applet *)

(* The statements before the try block of [interact]. *)
Definition interact_identify : M Device :=
  r <- identify ;;
  let '(idcode, device) := r in
  match device with
  | None => raise (GlasgowAppletError (unknown_device idcode))
  | Some device =>
      _ <- read_usercode ;;
      ret device
  end.

Definition verify_word (item : Z * (Z * Z)) : M unit :=
  let '(offset, (device_word, gold_word)) := item in
  if negb (device_word =? gold_word)
  then raise (GlasgowAppletError (verification_failed offset))
  else ret tt.

(* The body of the try block of [interact]. *)
Definition interact_try (fuel : nat) (device : Device) (args : Args) : M unit :=
  when (operation_is (operation args) read_bit) (
    programming_enable ;;
    device_words <- read fuel 0 (bitstream_words device) (negb (slow args)) ;;
    for_ device_words (fun word =>
      data <- lift (pack_L word) ;;
      emit (FileWrite data))) ;;
  words <- (if operation_is (operation args) program_bit
               || operation_is (operation args) verify_bit
            then
              words <- lift (read_words (bit_file args) []) ;;
              if negb (Z.of_nat (length words) =? bitstream_words device)
              then raise (GlasgowAppletError
                            (incorrect_bit_file_size (length words) (name device)))
              else ret words
            else ret []) ;;
  when (operation_is (operation args) program_bit) (
    programming_enable ;;
    program 0 words (negb (slow args))) ;;
  when (operation_is (operation args) verify_bit) (
    programming_enable ;;
    device_words <- read fuel 0 (bitstream_words device) (negb (slow args)) ;;
    for_ (enumerate (combine device_words words)) verify_word) ;;
  when (operation_is (operation args) erase) (
    programming_enable ;;
    bulk_erase).

Definition interact (fuel : nat) (args : Args) : M unit :=
  device <- interact_identify ;;
  try_finally (interact_try fuel device args) programming_disable.

(** *** Vocabulary for the statements below *)

(* An interface that never fails. *)
Definition reliable : Prop :=
  forall rq t, fst (lower rq t) <> Fault.

(* The state after a request, and the bits that answer it. *)
Definition next (rq : request) (t : tap) : tap := snd (lower rq t).

Definition answer (rq : request) (t : tap) : bitarray :=
  match fst (lower rq t) with Done bits => bits | Fault => [] end.

(* The ISDATA responses that [count] reads of 34 bits in a row shift out,
   from state [t] of the interface. *)
Fixpoint read_stream (count : nat) (t : tap) : list DR_ISDATA.t :=
  match count with
  | O => []
  | S count' =>
      isdata_from_bitarray (answer (Rq_read_dr 34) t)
        :: read_stream count' (next (Rq_read_dr 34) t)
  end.

End Engine.

(** ** A concrete platform, for running the model *)

Definition bits_of_Z (width : nat) (z : Z) : bitarray :=
  map (fun i => Z.testbit z (Z.of_nat i)) (seq 0 width).

Fixpoint Z_of_bits (bits : bitarray) : Z :=
  match bits with
  | [] => 0
  | b :: rest => Z.b2z b + 2 * Z_of_bits rest
  end.

Definition field (bits : bitarray) (start width : nat) : Z :=
  Z_of_bits (firstn width (skipn start bits)).

Definition flag (bits : bitarray) (position : nat) : bool :=
  nth position bits false.

(** Modelled from the spec: an entry of the device database
    [database/xilinx/xc9500.py], which is not among the sources.  It is
    the reference part, with its 1620 bitstream words and the USERCODE
    fields at words 90 and 105. *)
Definition xc9572xl : Device :=
  {| name := "XC9572XL"; bitstream_words := 1620;
     usercode_low := 90; usercode_high := 105 |}.

(** Modelled from the spec: the register layouts of
    [arch/xilinx/xc9500.py] and [arch/jtag.py], which are not among the
    sources.  Fields are packed least significant bit first, in the order
    the spec lists them: ISADDRESS is valid(1), strobe(1), address(16);
    ISDATA is valid(1), strobe(1), data(32); ISCONFIGURATION is valid(1),
    strobe(1), address(16), data(32).  IDCODE is taken in the IEEE 1149.1
    layout: a one, mfg_id(11), part_id(16), version(4). *)
#[local] Instance layout : Arch := {|
  idcode_from_bitarray bits :=
    DR_IDCODE.mk (field bits 1 11) (field bits 12 16) (field bits 28 4);
  isaddr_to_bitarray r :=
    DR_ISADDRESS.valid r :: DR_ISADDRESS.strobe r
      :: bits_of_Z 16 (DR_ISADDRESS.address r);
  isaddr_from_bitarray bits :=
    DR_ISADDRESS.mk (flag bits 0) (flag bits 1) (field bits 2 16);
  isdata_to_bitarray r :=
    DR_ISDATA.valid r :: DR_ISDATA.strobe r :: bits_of_Z 32 (DR_ISDATA.data r);
  isdata_from_bitarray bits :=
    DR_ISDATA.mk (flag bits 0) (flag bits 1) (field bits 2 32);
  isconf_to_bitarray r :=
    DR_ISCONFIGURATION.valid r :: DR_ISCONFIGURATION.strobe r
      :: bits_of_Z 16 (DR_ISCONFIGURATION.address r)
      ++ bits_of_Z 32 (DR_ISCONFIGURATION.data r);
  isconf_from_bitarray bits :=
    DR_ISCONFIGURATION.mk (flag bits 0) (flag bits 1)
                          (field bits 2 16) (field bits 18 32);
  devices mfg_id part_id :=
    if (mfg_id =? 73) && (part_id =? 38404) then Some xc9572xl else None
|}.

(* A TAP that answers reads and exchanges from a script, in order, and
   with no bits once the script is over.  It never fails. *)
#[local] Instance replay : TAP := {|
  tap := list bitarray;
  lower rq t :=
    match rq with
    | Rq_read_dr _ | Rq_exchange_dr _ =>
        match t with
        | [] => (Done [], [])
        | bits :: rest => (Done bits, rest)
        end
    | _ => (Done [], t)
    end
|}.

(* The same, with a script that can also make a read or an exchange fail. *)
Definition scripted : TAP := {|
  tap := list reply;
  lower rq t :=
    match rq with
    | Rq_read_dr _ | Rq_exchange_dr _ =>
        match t with
        | [] => (Done [], [])
        | rp :: rest => (rp, rest)
        end
    | _ => (Done [], t)
    end
|}.

(* The IDCODE of an XC9572XL, revision 5, as shifted out of the TAP. *)
Definition xc9572xl_idcode : bitarray := bits_of_Z 32 1499480211.

(* A replayed session with an XC9572XL: the answers to the IDCODE and
   USERCODE reads, then [script]. *)
Definition session (script : list bitarray) : @tap replay :=
  xc9572xl_idcode :: bits_of_Z 32 0 :: script.

Definition isdata_bits (valid : bool) (data : Z) : bitarray :=
  isdata_to_bitarray (DR_ISDATA.mk valid false data).

Definition isconf_bits (valid strobe : bool) (data : Z) : bitarray :=
  isconf_to_bitarray (DR_ISCONFIGURATION.mk valid strobe 0 data).

(** ** Further vocabulary: files, failures and selected instructions *)

(* The bytes that a run wrote to the output file, in order. *)
Definition written (evs : list event) : list byte :=
  flat_map (fun ev => match ev with FileWrite data => data | _ => [] end) evs.

(* The instructions selected by a run, in order. *)
Definition selected (evs : list event) : list ir :=
  flat_map (fun ev => match ev with Tap (Rq_write_ir code) _ => [code] | _ => [] end)
           evs.

(* The instructions among a list of requests. *)
Definition instructions (rqs : list request) : list ir :=
  flat_map (fun rq => match rq with Rq_write_ir code => [code] | _ => [] end) rqs.

Definition is_tap (ev : event) : bool :=
  match ev with Tap _ _ => true | _ => false end.

Definition is_fault (ev : event) : bool :=
  match ev with Tap _ Fault => true | _ => false end.

Definition fault_free (evs : list event) : Prop :=
  forallb (fun ev => negb (is_fault ev)) evs = true.

(* The instructions that erase or program the device. *)
Definition destructive (code : ir) : bool :=
  match code with IR_FBULK | IR_FPGM | IR_FPGMI => true | _ => false end.

Section Discipline.

Context {arch : Arch} {iface : TAP}.

(* A run that stops at the first failure of the transport: either no
   request failed and the outcome is not a transport error, or the
   failed request is the last event and the outcome is the transport
   error. *)
Definition fail_stop {A : Type} (r : outcome A * tap * list event) : Prop :=
  let '(out, _, evs) := r in
  (fault_free evs /\ out <> Raise TransportError) \/
  (out = Raise TransportError /\
   exists evs0 rq, evs = evs0 ++ [Tap rq Fault] /\ fault_free evs0).

(* A run that selects no erasing or programming instruction. *)
Definition harmless {A : Type} (r : outcome A * tap * list event) : Prop :=
  forallb (fun code => negb (destructive code)) (selected (snd r)) = true.

(* The loop of [interact] that writes the words read to the .bit file. *)
Definition write_word (word : Z) : M unit :=
  data <- lift (pack_L word) ;;
  emit (FileWrite data).

End Discipline.

(** ** class JTAGXC9500AppletTool

    [run] with the operation read-bit-usercode.  The tool takes the
    device from its -d argument and touches no hardware; what it computes
    is the packed USERCODE, which it logs. *)

Inductive tool_exn : Type :=
| Applet (e : exn)
| IndexError.

(* words[index], with Python's negative indices. *)
Definition getitem (words : list Z) (index : Z) : option Z :=
  let n := Z.of_nat (length words) in
  if (0 <=? index) && (index <? n) then nth_error words (Z.to_nat index)
  else if (- n <=? index) && (index <? 0) then nth_error words (Z.to_nat (index + n))
  else None.

(* [words[index] for index in range(start, start + 8)] *)
Fixpoint getitems (words : list Z) (indices : list Z) : option (list Z) :=
  match indices with
  | [] => Some []
  | index :: rest =>
      match getitem words index with
      | None => None
      | Some word =>
          match getitems words rest with
          | None => None
          | Some more => Some (word :: more)
          end
      end
  end.

Definition range_from (start count : Z) : list Z :=
  map (fun i => start + i) (range count).

Definition usercode_step (usercode usercode_word : Z) : Z :=
  Z.lor (Z.shiftl usercode 2) (Z.land (Z.shiftr usercode_word 6) 3).

Definition read_bit_usercode (device : Device) (bit_file : list byte)
  : tool_exn + list byte :=
  match read_words bit_file [] with
  | Raise e => inl (Applet e)
  | Diverge => inl (Applet struct_error)   (* not reached: the loop is finite *)
  | Ok words =>
      if negb (Z.of_nat (length words) =? bitstream_words device)
      then inl (Applet (GlasgowAppletError
                          (incorrect_bit_file_size (length words) (name device))))
      else
        match getitems words (range_from (usercode_low device) 8) with
        | None => inl IndexError
        | Some low_words =>
            match getitems words (range_from (usercode_high device) 8) with
            | None => inl IndexError
            | Some high_words =>
                let usercode_words := low_words ++ high_words in
                let usercode := fold_left usercode_step usercode_words 0 in
                match pack_L usercode with
                | Ok data => inr data
                | Raise e => inl (Applet e)
                | Diverge => inl (Applet struct_error)
                end
            end
        end
  end.

(* The base-4 digits of [value], most significant first, [count] of them. *)
Fixpoint digits4 (count : nat) (value : Z) : list Z :=
  match count with
  | O => []
  | S count' => (value / 4 ^ Z.of_nat count') mod 4 :: digits4 count' value
  end.

(** ** MIPS EJTAG: addresses of the debug registers

    From [arch/mips_ejtag.py]. *)

Definition DRSEG_addr : Z := 0xffffffffff300000.

Definition DRSEG_IBAn_addr (n : Z) : Z := DRSEG_addr + 0x1100 + 0x100 * n.
Definition DRSEG_IBMn_addr (n : Z) : Z := DRSEG_addr + 0x1108 + 0x100 * n.
Definition DRSEG_IBASIDn_addr (n : Z) : Z := DRSEG_addr + 0x1110 + 0x100 * n.
Definition DRSEG_IBCn_addr (n : Z) : Z := DRSEG_addr + 0x1118 + 0x100 * n.
Definition DRSEG_IBCCn_addr (n : Z) : Z := DRSEG_addr + 0x1120 + 0x100 * n.
Definition DRSEG_IBPCn_addr (n : Z) : Z := DRSEG_addr + 0x1128 + 0x100 * n.

Definition DRSEG_DBAn_addr (n : Z) : Z := DRSEG_addr + 0x2100 + 0x100 * n.
Definition DRSEG_DBMn_addr (n : Z) : Z := DRSEG_addr + 0x2108 + 0x100 * n.
Definition DRSEG_DBASIDn_addr (n : Z) : Z := DRSEG_addr + 0x2110 + 0x100 * n.
Definition DRSEG_DBCn_addr (n : Z) : Z := DRSEG_addr + 0x2118 + 0x100 * n.
Definition DRSEG_DBVn_addr (n : Z) : Z := DRSEG_addr + 0x2120 + 0x100 * n.
Definition DRSEG_DBCCn_addr (n : Z) : Z := DRSEG_addr + 0x2128 + 0x100 * n.
Definition DRSEG_DBPCn_addr (n : Z) : Z := DRSEG_addr + 0x2130 + 0x100 * n.

Definition DRSEG_IBAn_addr_v1 (n : Z) : Z := DRSEG_addr + 0x0100 + 0x10 * n.
Definition DRSEG_IBCn_addr_v1 (n : Z) : Z := DRSEG_addr + 0x0104 + 0x10 * n.
Definition DRSEG_IBMn_addr_v1 (n : Z) : Z := DRSEG_addr + 0x0108 + 0x10 * n.

Definition DRSEG_DBAn_addr_v1 (n : Z) : Z := DRSEG_addr + 0x0200 + 0x10 * n.
Definition DRSEG_DBCn_addr_v1 (n : Z) : Z := DRSEG_addr + 0x0204 + 0x10 * n.
Definition DRSEG_DBMn_addr_v1 (n : Z) : Z := DRSEG_addr + 0x0208 + 0x10 * n.
Definition DRSEG_DBVn_addr_v1 (n : Z) : Z := DRSEG_addr + 0x020c + 0x10 * n.

(* The per-breakpoint registers of EJTAG 2.5+ and of EJTAG 1.x/2.0. *)
Definition breakpoint_registers : list (Z -> Z) :=
  [DRSEG_IBAn_addr; DRSEG_IBMn_addr; DRSEG_IBASIDn_addr; DRSEG_IBCn_addr;
   DRSEG_IBCCn_addr; DRSEG_IBPCn_addr;
   DRSEG_DBAn_addr; DRSEG_DBMn_addr; DRSEG_DBASIDn_addr; DRSEG_DBCn_addr;
   DRSEG_DBVn_addr; DRSEG_DBCCn_addr; DRSEG_DBPCn_addr].

Definition breakpoint_registers_v1 : list (Z -> Z) :=
  [DRSEG_IBAn_addr_v1; DRSEG_IBCn_addr_v1; DRSEG_IBMn_addr_v1;
   DRSEG_DBAn_addr_v1; DRSEG_DBCn_addr_v1; DRSEG_DBMn_addr_v1;
   DRSEG_DBVn_addr_v1].
(** ** Facts about the address translation *)

Section AddressTranslation.

Lemma block_off_range w : 0 <= w mod BLOCK_WORDS < 15.
Proof. unfold BLOCK_WORDS. apply Z.mod_pos_bound. lia. Qed.

Lemma device_address_split w :
  bitstream_to_device_address w
  = 32 * (w / 15) + (8 * ((w mod 15) / 5) + (w mod 15) mod 5).
Proof. unfold bitstream_to_device_address, BLOCK_WORDS, GROUP_WORDS. lia. Qed.

Lemma block_local_range off : 0 <= off < 15 -> 0 <= block_local off < 32.
Proof.
  intros H. unfold block_local.
  assert (0 <= off / 5 < 3) by (split; [apply Z.div_pos | apply Z.div_lt_upper_bound]; lia).
  pose proof (Z.mod_pos_bound off 5). lia.
Qed.

Lemma block_local_lt o1 o2 :
  0 <= o1 -> o1 < o2 -> block_local o1 < block_local o2.
Proof.
  intros H0 Hlt. unfold block_local.
  pose proof (Z.div_mod o1 5). pose proof (Z.div_mod o2 5).
  pose proof (Z.mod_pos_bound o1 5). pose proof (Z.mod_pos_bound o2 5).
  assert (o1 / 5 <= o2 / 5) by (apply Z.div_le_mono; lia).
  lia.
Qed.

Lemma block_local_inj o1 o2 :
  0 <= o1 -> 0 <= o2 -> block_local o1 = block_local o2 -> o1 = o2.
Proof.
  intros H1 H2 E.
  destruct (Z.lt_trichotomy o1 o2) as [L | [L | L]]; [| exact L |].
  - pose proof (block_local_lt o1 o2 H1 L). lia.
  - pose proof (block_local_lt o2 o1 H2 L). lia.
Qed.

Lemma device_address_block w :
  bitstream_to_device_address w = 32 * (w / 15) + block_local (w mod 15).
Proof. rewrite device_address_split. reflexivity. Qed.

(* The table of the source: words 0..14 of block N go to N+0..4,
   N+8..12 and N+16..20. *)
Example device_addresses_of_block_3 :
  map bitstream_to_device_address (range 15)
  = [0; 1; 2; 3; 4; 8; 9; 10; 11; 12; 16; 17; 18; 19; 20] /\
  map (fun w => bitstream_to_device_address (45 + w) - 96) (range 15)
  = [0; 1; 2; 3; 4; 8; 9; 10; 11; 12; 16; 17; 18; 19; 20].
Proof. split; reflexivity. Qed.

(* The L-fields that hold USERCODE in a JED file are the words 90..97 and
   105..112. *)
Example usercode_fuses :
  map jed_to_device_address [2592; 2624; 2816; 3024; 3056; 3248]
  = [90; 91; 97; 105; 106; 112].
Proof. reflexivity. Qed.

(** C1. For a non-negative word address the translation is
    32*(w // 15) + 8*((w % 15) // 5) + (w % 15) % 5, and the first word of
    block k (word address 15*k) is sent to device address 32*k. *)
Theorem word_to_device_address_formula :
  (forall w, 0 <= w ->
     bitstream_to_device_address w
     = 32 * (w / 15) + 8 * ((w mod 15) / 5) + (w mod 15) mod 5) /\
  (forall k, 0 <= k -> bitstream_to_device_address (15 * k) = 32 * k).
Proof.
  split.
  - intros w _. reflexivity.
  - intros k _. unfold bitstream_to_device_address, BLOCK_WORDS, GROUP_WORDS.
    rewrite (Z.mul_comm 15 k), Z.div_mul, Z.mod_mul by lia.
    change (0 / 5) with 0. change (0 mod 5) with 0. lia.
Qed.

Lemma word_to_device_address_formula_witness :
  bitstream_to_device_address 22 = 32 * (22 / 15) + 8 * ((22 mod 15) / 5) + (22 mod 15) mod 5
  /\ bitstream_to_device_address (15 * 107) = 32 * 107.
Proof.
  split.
  - apply (proj1 word_to_device_address_formula 22). lia.
  - apply (proj2 word_to_device_address_formula 107). lia.
Defined.

(** C2. For a fuse address below 46656 the fuse-to-word translation
    takes the 32-bit branch for the first 288 bits of a block and the
    24-bit branch afterwards, and fuse address 432*k is word 15*k. *)
Theorem fuse_to_word_formula :
  (forall a, 0 <= a < 46656 ->
     jed_to_device_address a
     = if a mod 432 <? 288
       then 15 * (a / 432) + (a mod 432) / 32
       else 15 * (a / 432) + 9 + (a mod 432 - 288) / 24) /\
  (forall k, 0 <= k < 108 -> jed_to_device_address (432 * k) = 15 * k).
Proof.
  split.
  - intros a _. unfold jed_to_device_address, BLOCK_FUSES.
    change (9 * 32) with 288.
    destruct (a mod 432 <? 288); lia.
  - intros k _. unfold jed_to_device_address, BLOCK_FUSES.
    rewrite (Z.mul_comm 432 k), Z.div_mul, Z.mod_mul by lia.
    change (0 <? 9 * 32) with true. cbv iota zeta.
    change (0 / 32) with 0. lia.
Qed.

Lemma fuse_to_word_formula_witness :
  jed_to_device_address 3024
  = (if 3024 mod 432 <? 288
     then 15 * (3024 / 432) + (3024 mod 432) / 32
     else 15 * (3024 / 432) + 9 + (3024 mod 432 - 288) / 24)
  /\ jed_to_device_address (432 * 6) = 15 * 6.
Proof.
  split.
  - apply (proj1 fuse_to_word_formula 3024). lia.
  - apply (proj2 fuse_to_word_formula 6). lia.
Defined.

(** C3. On the word addresses of a device, [0, word_count), the
    translation is injective, strictly increasing inside each block of 15
    words, and never lands on the slots 5..7 of a group of 8. *)
Theorem word_to_device_address_injective (word_count : Z) :
  (forall w1 w2, 0 <= w1 < word_count -> 0 <= w2 < word_count ->
     bitstream_to_device_address w1 = bitstream_to_device_address w2 ->
     w1 = w2) /\
  (forall w1 w2, 0 <= w1 < word_count -> 0 <= w2 < word_count ->
     w1 / 15 = w2 / 15 -> w1 < w2 ->
     bitstream_to_device_address w1 < bitstream_to_device_address w2) /\
  (forall w, 0 <= w < word_count ->
     (bitstream_to_device_address w) mod 8 < 5).
Proof.
  split; [| split].
  - intros w1 w2 _ _ E. rewrite !device_address_block in E.
    pose proof (block_off_range w1) as R1. pose proof (block_off_range w2) as R2.
    unfold BLOCK_WORDS in R1, R2.
    pose proof (block_local_range _ R1). pose proof (block_local_range _ R2).
    assert (w1 / 15 = w2 / 15) as Eb by lia.
    assert (w1 mod 15 = w2 mod 15) as Eo by (apply block_local_inj; lia).
    rewrite (Z.div_mod w1 15), (Z.div_mod w2 15) by lia. congruence.
  - intros w1 w2 _ _ Eb Hlt. rewrite !device_address_block, Eb.
    pose proof (block_off_range w1) as R1. unfold BLOCK_WORDS in R1.
    pose proof (Z.div_mod w1 15). pose proof (Z.div_mod w2 15).
    assert (w1 mod 15 < w2 mod 15) by lia.
    pose proof (block_local_lt (w1 mod 15) (w2 mod 15)). lia.
  - intros w _. rewrite device_address_split.
    replace (32 * (w / 15) + (8 * (w mod 15 / 5) + (w mod 15) mod 5))
      with ((w mod 15) mod 5 + (4 * (w / 15) + (w mod 15) / 5) * 8) by lia.
    rewrite Z.mod_add by lia.
    pose proof (Z.mod_pos_bound (w mod 15) 5).
    rewrite Z.mod_small; lia.
Qed.

Lemma word_to_device_address_injective_witness :
  (bitstream_to_device_address 19 = bitstream_to_device_address 19 -> 19 = 19)
  /\ bitstream_to_device_address 19 < bitstream_to_device_address 20
  /\ (bitstream_to_device_address 1619) mod 8 < 5.
Proof.
  destruct (word_to_device_address_injective 1620) as [Hinj [Hmono Hslot]].
  split; [| split].
  - apply (Hinj 19 19); lia.
  - apply (Hmono 19 20); [lia | lia | reflexivity | lia].
  - apply (Hslot 1619); lia.
Defined.

End AddressTranslation.

(** ** Facts about the programming engine *)

Section EngineFacts.

Context {arch : Arch} {iface : TAP}.


Lemma bind_Ok {A B : Type} (m : M A) (k : A -> M B) t a t1 evs1 out t2 evs2 :
  m t = (Ok a, t1, evs1) ->
  k a t1 = (out, t2, evs2) ->
  bind m k t = (out, t2, evs1 ++ evs2).
Proof. intros Hm Hk. unfold bind. rewrite Hm, Hk. reflexivity. Qed.

Lemma lower_reliable (rq : request) (t : tap) :
  reliable -> lower rq t = (Done (answer rq t), next rq t).
Proof.
  intros R. specialize (R rq t). unfold answer, next.
  destruct (lower rq t) as [[bits |] t1]; cbn in *; congruence.
Qed.

Lemma call_reliable (rq : request) (t : tap) :
  reliable ->
  call rq t = (Ok (answer rq t), next rq t, [Tap rq (Done (answer rq t))]).
Proof. intros R. unfold call. rewrite (lower_reliable rq t R). reflexivity. Qed.

Lemma unit_call_reliable (rq : request) (t : tap) :
  reliable ->
  (call rq ;; ret tt) t = (Ok tt, next rq t, [Tap rq (Done (answer rq t))]).
Proof.
  intros R.
  apply (bind_Ok _ _ _ _ _ _ _ _ [] (call_reliable rq t R)). reflexivity.
Qed.

Lemma requests_app evs1 evs2 : requests (evs1 ++ evs2) = requests evs1 ++ requests evs2.
Proof. apply flat_map_app. Qed.

Lemma warnings_app evs1 evs2 : warnings (evs1 ++ evs2) = warnings evs1 ++ warnings evs2.
Proof. apply flat_map_app. Qed.

Lemma exchanged_app evs1 evs2 : exchanged (evs1 ++ evs2) = exchanged evs1 ++ exchanged evs2.
Proof. apply flat_map_app. Qed.

(** *** Bulk erase *)


(** *** Slow-path read *)




(** *** Fast-path read *)

Lemma fvfyi_loop_done (fuel : nat) (count : Z) (words : list Z) (index : Z) (t : tap) :
  count <= index -> _fvfyi_loop fuel count words index t = (Ok words, t, []).
Proof.
  intros H. assert ((index <? count) = false) as E by lia.
  destruct fuel; cbn [_fvfyi_loop]; rewrite E; reflexivity.
Qed.

Lemma fvfyi_loop_run (fuel : nat) (count : Z) (words : list Z) (index : Z) (t : tap) :
  reliable ->
  count - index <= Z.of_nat (length (filter DR_ISDATA.valid (read_stream fuel t))) ->
  exists t1 evs k,
    _fvfyi_loop fuel count words index t
    = (Ok (words ++ firstn (Z.to_nat (count - index))
                      (map DR_ISDATA.data
                           (filter DR_ISDATA.valid (read_stream fuel t)))),
       t1, evs) /\
    (k <= fuel)%nat /\
    requests evs = repeat (Rq_read_dr 34) k /\
    firstn (Z.to_nat (count - index))
           (map DR_ISDATA.data (filter DR_ISDATA.valid (read_stream fuel t)))
    = map DR_ISDATA.data (filter DR_ISDATA.valid (firstn k (read_stream fuel t))).
Proof.
  intros R. revert words index t.
  induction fuel as [| fuel IH]; intros words index t Hn.
  - cbn in Hn. rewrite fvfyi_loop_done by lia.
    exists t, [], 0%nat. cbn [read_stream filter map firstn].
    rewrite firstn_nil, app_nil_r. repeat split; (reflexivity || lia).
  - destruct (Z.leb_spec count index) as [Hle | Hlt].
    + rewrite fvfyi_loop_done by lia.
      exists t, [], 0%nat.
      replace (Z.to_nat (count - index)) with 0%nat by lia.
      cbn [firstn filter map]. rewrite app_nil_r.
      repeat split; (reflexivity || lia).
    + assert ((index <? count) = true) as E by lia.
      cbn [_fvfyi_loop read_stream] in *. rewrite E.
      unfold read_dr. unfold bind at 1. rewrite (call_reliable _ _ R).
      cbn [filter] in *.
      set (isdata := isdata_from_bitarray (answer (Rq_read_dr 34) t)) in *.
      destruct (DR_ISDATA.valid isdata) eqn:V.
      * cbn [length] in Hn.
        destruct (IH (words ++ [DR_ISDATA.data isdata]) (index + 1)
                     (next (Rq_read_dr 34) t))
          as (t1 & evs & k & Hrun & Hk & Hrq & Hcut); [lia |].
        rewrite Hrun.
        replace (Z.to_nat (count - index))
          with (S (Z.to_nat (count - (index + 1)))) by lia.
        exists t1. eexists. exists (S k).
        cbn [map firstn filter]. rewrite V. cbn [map].
        rewrite <- app_assoc. cbn [app].
        repeat split.
        -- lia.
        -- cbn [requests flat_map app repeat]. f_equal. exact Hrq.
        -- f_equal. exact Hcut.
      * destruct (IH words index (next (Rq_read_dr 34) t))
          as (t1 & evs & k & Hrun & Hk & Hrq & Hcut); [lia |].
        rewrite Hrun.
        exists t1. eexists. exists (S k).
        cbn [firstn filter]. rewrite V.
        repeat split.
        -- lia.
        -- cbn [requests flat_map app repeat]. f_equal. exact Hrq.
        -- exact Hcut.
Qed.

(** C5. When the responses that the device shifts out hold at least n
    with the valid bit set, the fast-path read [_fvfyi(n)] returns the
    data fields of the first n valid responses, in the order of the
    stream: responses with valid=0 are dropped, and nothing but 34-bit
    reads is sent after the FVFYI select.  In particular, when the
    stream starts with invalid responses followed by M valid ones, a read
    of M words gives the data of just these M responses. *)
Theorem fvfyi_collects (fuel : nat) (count : Z) (t : tap) :
  reliable ->
  let stream := read_stream fuel (next (Rq_write_ir IR_FVFYI) t) in
  (count <= Z.of_nat (length (filter DR_ISDATA.valid stream)) ->
   exists t1 evs k,
     _fvfyi fuel count t
     = (Ok (firstn (Z.to_nat count)
                   (map DR_ISDATA.data (filter DR_ISDATA.valid stream))),
        t1, evs) /\
     requests evs = Rq_write_ir IR_FVFYI :: repeat (Rq_read_dr 34) k /\
     firstn (Z.to_nat count) (map DR_ISDATA.data (filter DR_ISDATA.valid stream))
     = map DR_ISDATA.data (filter DR_ISDATA.valid (firstn k stream))) /\
  (forall invalid valid later,
     stream = invalid ++ valid ++ later ->
     forallb (fun r => negb (DR_ISDATA.valid r)) invalid = true ->
     forallb DR_ISDATA.valid valid = true ->
     count = Z.of_nat (length valid) ->
     exists t1 evs,
       _fvfyi fuel count t = (Ok (map DR_ISDATA.data valid), t1, evs)).
Proof.
  intros R stream.
  assert (forall n, n <= Z.of_nat (length (filter DR_ISDATA.valid stream)) ->
          n = count ->
          exists t1 evs k,
            _fvfyi fuel count t
            = (Ok (firstn (Z.to_nat count)
                          (map DR_ISDATA.data (filter DR_ISDATA.valid stream))),
               t1, evs) /\
            requests evs = Rq_write_ir IR_FVFYI :: repeat (Rq_read_dr 34) k /\
            firstn (Z.to_nat count)
                   (map DR_ISDATA.data (filter DR_ISDATA.valid stream))
            = map DR_ISDATA.data (filter DR_ISDATA.valid (firstn k stream)))
    as Main.
  { intros n Hn ->. unfold _fvfyi, write_ir.
    unfold bind at 1. rewrite (unit_call_reliable _ _ R).
    destruct (fvfyi_loop_run fuel count [] 0 (next (Rq_write_ir IR_FVFYI) t) R)
      as (t1 & evs & k & Hrun & Hk & Hrq & Hcut).
    { fold stream. lia. }
    rewrite Z.sub_0_r in *. fold stream in Hrun, Hcut.
    rewrite Hrun. exists t1. eexists. exists k. cbn [app].
    repeat split.
    - cbn [requests flat_map app]. f_equal. exact Hrq.
    - exact Hcut. }
  clearbody stream.
  split.
  - intros Hn. exact (Main count Hn eq_refl).
  - intros invalid valid later Hs Hinv Hval Hcount.
    assert (filter DR_ISDATA.valid invalid = []) as F1.
    { clear - Hinv. induction invalid as [| r l IH]; [reflexivity |].
      cbn in *. apply andb_prop in Hinv. destruct Hinv as [Hr Hl].
      destruct (DR_ISDATA.valid r); [discriminate | auto]. }
    assert (filter DR_ISDATA.valid valid = valid) as F2.
    { clear - Hval. induction valid as [| r l IH]; [reflexivity |].
      cbn in *. apply andb_prop in Hval. destruct Hval as [Hr Hl].
      rewrite Hr. f_equal. auto. }
    assert (filter DR_ISDATA.valid stream
            = valid ++ filter DR_ISDATA.valid later) as F.
    { rewrite Hs, !filter_app, F1, F2. reflexivity. }
    destruct (Main count) as (t1 & evs & k & Hrun & _); [| reflexivity |].
    { rewrite F, length_app. lia. }
    exists t1, evs. rewrite Hrun. do 2 f_equal.
    rewrite F, map_app, Hcount, Nat2Z.id.
    rewrite <- (length_map DR_ISDATA.data valid).
    rewrite firstn_app, firstn_all, Nat.sub_diag. cbn [firstn].
    rewrite app_nil_r. reflexivity.
Qed.

(** *** Slow-path programming *)

Lemma combine_app {A B : Type} (l1 l2 : list A) (m1 m2 : list B) :
  length l1 = length m1 ->
  combine (l1 ++ l2) (m1 ++ m2) = combine l1 m1 ++ combine l2 m2.
Proof.
  revert m1. induction l1 as [| a l1 IH]; intros [| b m1] H; try discriminate.
  - reflexivity.
  - cbn. f_equal. apply IH. cbn in H. congruence.
Qed.

Lemma map_fst_enumerate_from {A : Type} (start : nat) (xs : list A) :
  map fst (enumerate_from start xs) = map Z.of_nat (seq start (length xs)).
Proof.
  unfold enumerate_from. revert start.
  induction xs as [| x xs IH]; intros start; [reflexivity |].
  cbn. f_equal. apply IH.
Qed.

(* What the programming of one word asks of the TAP. *)
Lemma fpgm_word_run (address offset word : Z) (t : tap) :
  reliable ->
  let dev_address := bitstream_to_device_address (address + offset) in
  let strobe := offset mod 15 =? 14 in
  exists t1 evs,
    _fpgm_word address (offset, word) t = (Ok tt, t1, evs) /\
    requests evs
    = Rq_write_dr (firstn 50 (isconf_to_bitarray
                     (DR_ISCONFIGURATION.mk true strobe dev_address word)))
      :: (if strobe
          then [Rq_run_test_idle 20000;
                Rq_exchange_dr (firstn 50 (isconf_to_bitarray
                   (DR_ISCONFIGURATION.mk false false dev_address 0)))]
          else []) /\
    length (exchanged evs) = (if strobe then 1%nat else 0%nat) /\
    warnings evs
    = flat_map (fun bits =>
                  let isconf := isconf_from_bitarray bits in
                  if DR_ISCONFIGURATION.valid isconf
                     && negb (DR_ISCONFIGURATION.strobe isconf)
                  then []
                  else [program_word_failed offset isconf])
               (exchanged evs).
Proof.
  intros R dev_address strobe.
  unfold _fpgm_word, write_dr, run_test_idle, exchange_dr, BLOCK_WORDS.
  cbv zeta. change (15 - 1) with 14. fold dev_address strobe.
  unfold bind at 1. rewrite (unit_call_reliable _ _ R).
  destruct strobe; cbn [when].
  - unfold bind at 1. rewrite (unit_call_reliable _ _ R).
    unfold bind at 1. rewrite (call_reliable _ _ R).
    match goal with
    | |- context [negb (?v && negb ?s)] => destruct (v && negb s) eqn:E
    end; cbn [negb when]; do 2 eexists;
      (split; [reflexivity |]);
      cbn [requests warnings exchanged flat_map app length];
      rewrite ?E; auto.
  - do 2 eexists. split; [reflexivity |].
    cbn [requests warnings exchanged flat_map app length]. auto.
Qed.

Lemma fpgm_loop (address : Z) (items : list (Z * Z)) (t : tap) :
  reliable ->
  let strobe := fun offset => offset mod 15 =? 14 in
  exists t1 evs,
    for_ items (_fpgm_word address) t = (Ok tt, t1, evs) /\
    requests evs
    = flat_map (fun '(offset, word) =>
        let dev_address := bitstream_to_device_address (address + offset) in
        Rq_write_dr (firstn 50 (isconf_to_bitarray
                       (DR_ISCONFIGURATION.mk true (strobe offset) dev_address word)))
        :: (if strobe offset
            then [Rq_run_test_idle 20000;
                  Rq_exchange_dr (firstn 50 (isconf_to_bitarray
                     (DR_ISCONFIGURATION.mk false false dev_address 0)))]
            else [])) items /\
    length (exchanged evs) = length (filter strobe (map fst items)) /\
    warnings evs
    = flat_map (fun '(offset, bits) =>
                  let isconf := isconf_from_bitarray bits in
                  if DR_ISCONFIGURATION.valid isconf
                     && negb (DR_ISCONFIGURATION.strobe isconf)
                  then []
                  else [program_word_failed offset isconf])
               (combine (filter strobe (map fst items)) (exchanged evs)).
Proof.
  intros R strobe. revert t.
  induction items as [| [offset word] rest IH]; intros t.
  - exists t, []. repeat split; reflexivity.
  - cbn [for_].
    destruct (fpgm_word_run address offset word t R)
      as (t1 & evs1 & Hrun1 & Hrq1 & Hlen1 & Hw1). cbv zeta in *.
    destruct (IH t1) as (t2 & evs2 & Hrun2 & Hrq2 & Hlen2 & Hw2).
    rewrite (bind_Ok _ _ _ _ _ _ _ _ _ Hrun1 Hrun2).
    exists t2, (evs1 ++ evs2).
    rewrite requests_app, exchanged_app, warnings_app, length_app.
    cbn [flat_map map filter fst]. fold (strobe offset) in Hrq1, Hlen1.
    split; [reflexivity |]. split; [rewrite Hrq1, Hrq2; reflexivity |].
    rewrite Hw1, Hw2, Hlen1, Hlen2.
    destruct (strobe offset).
    + split; [reflexivity |].
      destruct (exchanged evs1) as [| bits [| ? ?]]; try discriminate.
      cbn. rewrite app_nil_r. reflexivity.
    + split; [reflexivity |].
      destruct (exchanged evs1) as [| ? ?]; try discriminate.
      reflexivity.
Qed.

Lemma fpgm_run (address : Z) (words : list Z) (t : tap) :
  reliable ->
  exists t1 evs,
    _fpgm address words t = (Ok tt, t1, evs) /\
    requests evs
    = Rq_write_ir IR_FPGM
      :: flat_map (fun '(i, word) =>
           let dev_address := bitstream_to_device_address (address + i) in
           Rq_write_dr (firstn 50 (isconf_to_bitarray
                          (DR_ISCONFIGURATION.mk true (i mod 15 =? 14)
                                                 dev_address word)))
           :: (if i mod 15 =? 14
               then [Rq_run_test_idle 20000;
                     Rq_exchange_dr (firstn 50 (isconf_to_bitarray
                        (DR_ISCONFIGURATION.mk false false dev_address 0)))]
               else [])) (enumerate words)
      ++ (if is_empty words
          then [Rq_write_dr (firstn 50 (isconf_to_bitarray
                  (DR_ISCONFIGURATION.mk true false
                     (bitstream_to_device_address address) 0)))]
          else []) /\
    warnings evs
    = flat_map (fun '(i, bits) =>
                  let isconf := isconf_from_bitarray bits in
                  if DR_ISCONFIGURATION.valid isconf
                     && negb (DR_ISCONFIGURATION.strobe isconf)
                  then []
                  else [program_word_failed i isconf])
               (combine (filter (fun i => i mod 15 =? 14)
                                (range (Z.of_nat (length words))))
                        (exchanged evs)).
Proof.
  intros R. unfold _fpgm, write_ir, write_dr. cbv zeta.
  unfold bind at 1. rewrite (unit_call_reliable _ _ R).
  destruct words as [| word words].
  - unfold bind at 1.
    cbn [enumerate enumerate_from length seq map combine for_ ret is_empty when].
    rewrite (unit_call_reliable _ _ R).
    eexists _, _. repeat split.
  - remember (word :: words) as ws eqn:Ews.
    destruct (fpgm_loop address (enumerate ws)
                        (next (Rq_write_ir IR_FPGM) t) R)
      as (t1 & evs1 & Hrun & Hrq & Hlen & Hw). cbv zeta in *.
    unfold bind at 1. rewrite Hrun.
    unfold enumerate in Hw. rewrite map_fst_enumerate_from in Hw.
    unfold range. rewrite Nat2Z.id.
    replace (is_empty ws) with false by (subst ws; reflexivity).
    cbn [when ret].
    exists t1, (Tap (Rq_write_ir IR_FPGM)
                    (Done (answer (Rq_write_ir IR_FPGM) t)) :: evs1).
    split; [cbn [app]; rewrite app_nil_r; reflexivity |].
    rewrite !app_nil_r.
    change (requests (?e :: evs1)) with (requests [e] ++ requests evs1).
    change (warnings (?e :: evs1)) with (warnings [e] ++ warnings evs1).
    change (exchanged (?e :: evs1)) with (exchanged [e] ++ exchanged evs1).
    rewrite Hrq, Hw. split; reflexivity.
Qed.



(** *** Autoincrement programming *)

(* What the autoincrement programming of one word asks of the TAP. *)
Lemma fpgmi_word_run (offset word : Z) (t : tap) :
  reliable ->
  let strobe := offset mod 15 =? 14 in
  exists t1 evs,
    _fpgmi_word (offset, word) t = (Ok tt, t1, evs) /\
    requests evs
    = Rq_write_dr (firstn 34 (isdata_to_bitarray (DR_ISDATA.mk true strobe word)))
      :: (if strobe
          then [Rq_run_test_idle 20000;
                Rq_exchange_dr (firstn 34 (isdata_to_bitarray
                                             (DR_ISDATA.mk false false 0)))]
          else []).
Proof.
  intros R strobe.
  unfold _fpgmi_word, write_dr, run_test_idle, exchange_dr, BLOCK_WORDS.
  cbv zeta. change (15 - 1) with 14. fold strobe.
  unfold bind at 1. rewrite (unit_call_reliable _ _ R).
  destruct strobe; cbn [when].
  - unfold bind at 1. rewrite (unit_call_reliable _ _ R).
    unfold bind at 1. rewrite (call_reliable _ _ R).
    match goal with
    | |- context [negb (?v && negb ?s)] => destruct (v && negb s)
    end; cbn [negb when]; do 2 eexists; split; reflexivity.
  - do 2 eexists. split; reflexivity.
Qed.

Lemma fpgmi_run (words : list Z) (t : tap) :
  reliable ->
  exists t1 evs,
    _fpgmi words t = (Ok tt, t1, evs) /\
    requests evs
    = Rq_write_ir IR_FPGMI
      :: flat_map (fun '(i, word) =>
           Rq_write_dr (firstn 34 (isdata_to_bitarray
                          (DR_ISDATA.mk true (i mod 15 =? 14) word)))
           :: (if i mod 15 =? 14
               then [Rq_run_test_idle 20000;
                     Rq_exchange_dr (firstn 34 (isdata_to_bitarray
                                                  (DR_ISDATA.mk false false 0)))]
               else [])) (enumerate words).
Proof.
  intros R. unfold _fpgmi, write_ir.
  unfold bind at 1. rewrite (unit_call_reliable _ _ R).
  generalize (next (Rq_write_ir IR_FPGMI) t) as t0.
  generalize (enumerate words) as items.
  induction items as [| [offset word] rest IH]; intros t0.
  - exists t0. eexists. split; reflexivity.
  - destruct (fpgmi_word_run offset word t0 R) as (t1 & evs1 & Hrun1 & Hrq1).
    destruct (IH t1) as (t2 & evs2 & Hrun2 & Hrq2).
    destruct (for_ rest _fpgmi_word t1) as [[out2 t2'] evs2'] eqn:Hrest.
    injection Hrun2 as -> -> Hevs.
    cbn [for_]. rewrite (bind_Ok _ _ _ _ _ _ _ _ _ Hrun1 Hrest).
    cbn [app] in Hevs. subst evs2.
    exists t2, (Tap (Rq_write_ir IR_FPGMI)
                    (Done (answer (Rq_write_ir IR_FPGMI) t)) :: evs1 ++ evs2').
    split; [reflexivity |].
    change (requests (?e :: evs1 ++ evs2'))
      with (requests [e] ++ requests (evs1 ++ evs2')).
    change (requests (?e :: evs2')) with (requests [e] ++ requests evs2') in Hrq2.
    cbn [requests flat_map app] in Hrq2 |- *. injection Hrq2 as Hrq2.
    fold (requests evs2') in Hrq2. fold (requests (evs1 ++ evs2')).
    rewrite requests_app, Hrq1, Hrq2. reflexivity.
Qed.

(** *** Fast-path programming *)

Lemma program_aligned (address : Z) (words : list Z) (fast : bool) (t : tap) :
  address mod 15 = 0 ->
  Z.of_nat (length words) mod 15 = 0 ->
  program address words fast t
  = (if fast
     then _fpgm 0 (firstn 15 words) ;; _fpgmi (skipn 15 words)
     else _fpgm address words) t.
Proof.
  intros Ha Hw. unfold program, assert_, BLOCK_WORDS.
  rewrite Ha, Hw. cbn [Z.eqb andb].
  unfold bind at 1. cbn [ret].
  match goal with
  | |- (let (_, _) := ?m in _) = _ => destruct m as [[out t1] evs]
  end.
  reflexivity.
Qed.

(** C10. With fast=True, [program] does not look at its address beyond
    the alignment check: for a 15-aligned address and a multiple of 15
    words it programs the first 15 words with [_fpgm] at word address 0
    and the others with [_fpgmi], so two aligned addresses give the same
    run; on a TAP that does not fail the requests are the FPGM writes for
    the word addresses 0, 1, ... followed by the FPGMI writes, which carry
    no address. *)
Theorem program_fast_ignores_address (a1 a2 : Z) (words : list Z) (t : tap) :
  a1 mod 15 = 0 ->
  a2 mod 15 = 0 ->
  Z.of_nat (length words) mod 15 = 0 ->
  program a1 words true t = program a2 words true t /\
  program a1 words true t
  = (_fpgm 0 (firstn 15 words) ;; _fpgmi (skipn 15 words)) t /\
  (reliable ->
   exists t1 evs,
     program a1 words true t = (Ok tt, t1, evs) /\
     requests evs
     = (Rq_write_ir IR_FPGM
        :: flat_map (fun '(i, word) =>
             let dev_address := bitstream_to_device_address (0 + i) in
             Rq_write_dr (firstn 50 (isconf_to_bitarray
                            (DR_ISCONFIGURATION.mk true (i mod 15 =? 14)
                                                   dev_address word)))
             :: (if i mod 15 =? 14
                 then [Rq_run_test_idle 20000;
                       Rq_exchange_dr (firstn 50 (isconf_to_bitarray
                          (DR_ISCONFIGURATION.mk false false dev_address 0)))]
                 else [])) (enumerate (firstn 15 words))
        ++ (if is_empty (firstn 15 words)
            then [Rq_write_dr (firstn 50 (isconf_to_bitarray
                    (DR_ISCONFIGURATION.mk true false
                       (bitstream_to_device_address 0) 0)))]
            else []))
       ++ Rq_write_ir IR_FPGMI
          :: flat_map (fun '(i, word) =>
               Rq_write_dr (firstn 34 (isdata_to_bitarray
                              (DR_ISDATA.mk true (i mod 15 =? 14) word)))
               :: (if i mod 15 =? 14
                   then [Rq_run_test_idle 20000;
                         Rq_exchange_dr (firstn 34 (isdata_to_bitarray
                                                      (DR_ISDATA.mk false false 0)))]
                   else [])) (enumerate (skipn 15 words))).
Proof.
  intros H1 H2 Hw.
  rewrite (program_aligned a1 words true t H1 Hw).
  rewrite (program_aligned a2 words true t H2 Hw).
  split; [reflexivity |]. split; [reflexivity |].
  intros R.
  destruct (fpgm_run 0 (firstn 15 words) t R) as (t1 & evs1 & Hrun1 & Hrq1 & _).
  destruct (fpgmi_run (skipn 15 words) t1 R) as (t2 & evs2 & Hrun2 & Hrq2).
  exists t2, (evs1 ++ evs2). split.
  - exact (bind_Ok _ _ _ _ _ _ _ _ _ Hrun1 Hrun2).
  - rewrite requests_app, Hrq1, Hrq2. reflexivity.
Qed.

(** *** Sequencing of an operation *)

Lemma read_words_whole (k : nat) :
  forall (data : list byte) (words : list Z),
    length data = (4 * k)%nat ->
    exists more, length more = k /\ read_words data words = Ok (words ++ more).
Proof.
  induction k as [| k IH]; intros data words Hlen.
  - destruct data; [| discriminate]. exists []. rewrite app_nil_r. split; reflexivity.
  - destruct data as [| b0 [| b1 [| b2 [| b3 rest]]]]; cbn in Hlen; try lia.
    destruct (IH rest (words ++ [unpack_L b0 b1 b2 b3])) as (more & Hm & Hr); [lia |].
    exists (unpack_L b0 b1 b2 b3 :: more). split; [cbn; lia |].
    cbn [read_words]. rewrite Hr, <- app_assoc. reflexivity.
Qed.

Lemma programming_disable_run (t : tap) :
  programming_disable t
  = (match fst (lower (Rq_write_ir IR_ISPEX) t) with
     | Done _ => Ok tt
     | Fault => Raise TransportError
     end,
     snd (lower (Rq_write_ir IR_ISPEX) t),
     [Tap (Rq_write_ir IR_ISPEX) (fst (lower (Rq_write_ir IR_ISPEX) t))]).
Proof.
  unfold programming_disable, write_ir, bind, call.
  destruct (lower (Rq_write_ir IR_ISPEX) t) as [[bits |] t1]; reflexivity.
Qed.

Lemma try_finally_disable {A : Type} (body : M A) (t t1 : tap)
    (out : outcome A) (evs1 : list event) :
  body t = (out, t1, evs1) ->
  out <> Diverge ->
  try_finally body programming_disable t
  = (match fst (lower (Rq_write_ir IR_ISPEX) t1) with
     | Done _ => out
     | Fault => Raise TransportError
     end,
     snd (lower (Rq_write_ir IR_ISPEX) t1),
     evs1 ++ [Tap (Rq_write_ir IR_ISPEX) (fst (lower (Rq_write_ir IR_ISPEX) t1))]).
Proof.
  intros Hbody Hout. unfold try_finally.
  rewrite Hbody, programming_disable_run.
  destruct out as [a | e |]; [| | congruence];
    destruct (fst (lower (Rq_write_ir IR_ISPEX) t1)); reflexivity.
Qed.

(* What has been asked of the TAP when the try block is entered. *)
Lemma interact_identify_requests (t t0 : tap) (device : Device) (evs0 : list event) :
  interact_identify t = (Ok device, t0, evs0) ->
  requests evs0
  = [Rq_write_ir IR_IDCODE; Rq_read_dr 32; Rq_write_ir IR_USERCODE; Rq_read_dr 32].
Proof.
  unfold interact_identify, identify, read_usercode, write_ir, read_dr, bind, call, ret.
  destruct (lower (Rq_write_ir IR_IDCODE) t) as [[b1 |] t1]; [| discriminate].
  destruct (lower (Rq_read_dr 32) t1) as [[b2 |] t2]; [| discriminate].
  destruct (devices _ _) as [dev |]; [| discriminate].
  destruct (lower (Rq_write_ir IR_USERCODE) t2) as [[b3 |] t3]; [| discriminate].
  destruct (lower (Rq_read_dr 32) t3) as [[b4 |] t4]; [| discriminate].
  intros H. injection H as _ _ <-. reflexivity.
Qed.

(** C9. Once the try block of [interact] is entered, whatever the
    operation and however its steps end (normally or with an exception),
    the ISPEX select of [programming_disable] is the next request, and the
    last one.  The outcome of the operation is kept unless the select
    itself fails. *)
Theorem interact_always_disables
    (fuel : nat) (args : Args) (device : Device)
    (t t0 t1 : tap) (evs0 evs1 : list event) (out : outcome unit) :
  interact_identify t = (Ok device, t0, evs0) ->
  interact_try fuel device args t0 = (out, t1, evs1) ->
  out <> Diverge ->
  exists rp t2,
    lower (Rq_write_ir IR_ISPEX) t1 = (rp, t2) /\
    interact fuel args t
    = (match rp with Done _ => out | Fault => Raise TransportError end,
       t2,
       evs0 ++ evs1 ++ [Tap (Rq_write_ir IR_ISPEX) rp]).
Proof.
  intros Hid Htry Hout.
  destruct (lower (Rq_write_ir IR_ISPEX) t1) as [rp t2] eqn:L.
  exists rp, t2. split; [reflexivity |].
  unfold interact. apply (bind_Ok _ _ _ _ _ _ _ _ _ Hid).
  rewrite (try_finally_disable _ _ _ _ _ Htry Hout), L. reflexivity.
Qed.

(** C8 (amended). For program-bit and verify-bit, a file of k whole
    32-bit words with k different from the word count of the identified
    device is rejected with the size error before programming is enabled
    and before anything is programmed or read back: the TAP is only asked
    for the IDCODE and the USERCODE before the check, and for ISPEX on the
    way out. *)
Theorem size_mismatch_rejected
    (fuel : nat) (args : Args) (device : Device) (k : nat)
    (t t0 : tap) (evs0 : list event) :
  reliable ->
  operation args = Some program_bit \/ operation args = Some verify_bit ->
  interact_identify t = (Ok device, t0, evs0) ->
  length (bit_file args) = (4 * k)%nat ->
  Z.of_nat k <> bitstream_words device ->
  exists t1 evs,
    interact fuel args t
    = (Raise (GlasgowAppletError (incorrect_bit_file_size k (name device))),
       t1, evs) /\
    requests evs
    = [Rq_write_ir IR_IDCODE; Rq_read_dr 32;
       Rq_write_ir IR_USERCODE; Rq_read_dr 32;
       Rq_write_ir IR_ISPEX].
Proof.
  intros R Hop Hid Hlen Hk.
  destruct (read_words_whole k (bit_file args) [] Hlen) as (words & Hwords & Hread).
  cbn [app] in Hread.
  assert (interact_try fuel device args t0
          = (Raise (GlasgowAppletError (incorrect_bit_file_size k (name device))),
             t0, [])) as Htry.
  { unfold interact_try.
    assert (operation_is (operation args) read_bit = false) as E1
      by (destruct Hop as [-> | ->]; reflexivity).
    assert (operation_is (operation args) program_bit
            || operation_is (operation args) verify_bit = true) as E2
      by (destruct Hop as [-> | ->]; reflexivity).
    rewrite E1, E2. cbn [when].
    unfold bind at 1. cbn [ret].
    unfold bind at 1. unfold bind at 1. unfold lift. rewrite Hread.
    assert ((Z.of_nat (length words) =? bitstream_words device) = false) as E3
      by (rewrite Hwords; lia).
    rewrite E3, Hwords. reflexivity. }
  pose proof (try_finally_disable _ _ _ _ _ Htry) as Hfin.
  rewrite (lower_reliable _ _ R) in Hfin. cbn [fst snd app] in Hfin.
  eexists _, _. split.
  - unfold interact. eapply bind_Ok; [exact Hid |].
    apply Hfin. discriminate.
  - rewrite requests_app, (interact_identify_requests _ _ _ _ Hid). reflexivity.
Qed.

End EngineFacts.

(** ** The statements above, on a replayed session *)

Lemma replay_reliable : @reliable replay.
Proof. intros rq t. destruct rq, t; discriminate. Qed.



Lemma fvfyi_collects_witness :
  let stream :=
    @read_stream layout replay 5
      (@next replay (Rq_write_ir IR_FVFYI)
         [isdata_bits false 1; isdata_bits false 2;
          isdata_bits true 3; isdata_bits true 4]) in
  (exists t1 evs k,
     @_fvfyi layout replay 5 2
       [isdata_bits false 1; isdata_bits false 2;
        isdata_bits true 3; isdata_bits true 4]
     = (Ok (firstn (Z.to_nat 2)
                   (map DR_ISDATA.data (filter DR_ISDATA.valid stream))),
        t1, evs) /\
     requests evs = Rq_write_ir IR_FVFYI :: repeat (Rq_read_dr 34) k /\
     firstn (Z.to_nat 2) (map DR_ISDATA.data (filter DR_ISDATA.valid stream))
     = map DR_ISDATA.data (filter DR_ISDATA.valid (firstn k stream))) /\
  (exists t1 evs,
     @_fvfyi layout replay 5 2
       [isdata_bits false 1; isdata_bits false 2;
        isdata_bits true 3; isdata_bits true 4]
     = (Ok [3; 4], t1, evs)).
Proof.
  pose proof (@fvfyi_collects layout replay 5 2
                [isdata_bits false 1; isdata_bits false 2;
                 isdata_bits true 3; isdata_bits true 4]
                replay_reliable) as [H1 H2].
  split.
  - apply H1. vm_compute. discriminate.
  - apply (H2 [DR_ISDATA.mk false false 1; DR_ISDATA.mk false false 2]
              [DR_ISDATA.mk true false 3; DR_ISDATA.mk true false 4]
              [DR_ISDATA.mk false false 0]); reflexivity.
Defined.


Lemma program_fast_ignores_address_witness :
  let words := map Z.of_nat (seq 0 30) in
  @program layout replay 0 words true [] = @program layout replay 45 words true [] /\
  @program layout replay 0 words true []
  = (_fpgm 0 (firstn 15 words) ;; _fpgmi (skipn 15 words)) [] /\
  (exists t1 evs,
     @program layout replay 0 words true [] = (Ok tt, t1, evs) /\
     requests evs
     = (Rq_write_ir IR_FPGM
        :: flat_map (fun '(i, word) =>
             let dev_address := bitstream_to_device_address (0 + i) in
             Rq_write_dr (firstn 50 (isconf_to_bitarray
                            (DR_ISCONFIGURATION.mk true (i mod 15 =? 14)
                                                   dev_address word)))
             :: (if i mod 15 =? 14
                 then [Rq_run_test_idle 20000;
                       Rq_exchange_dr (firstn 50 (isconf_to_bitarray
                          (DR_ISCONFIGURATION.mk false false dev_address 0)))]
                 else [])) (enumerate (firstn 15 words))
        ++ (if is_empty (firstn 15 words)
            then [Rq_write_dr (firstn 50 (isconf_to_bitarray
                    (DR_ISCONFIGURATION.mk true false
                       (bitstream_to_device_address 0) 0)))]
            else []))
       ++ Rq_write_ir IR_FPGMI
          :: flat_map (fun '(i, word) =>
               Rq_write_dr (firstn 34 (isdata_to_bitarray
                              (DR_ISDATA.mk true (i mod 15 =? 14) word)))
               :: (if i mod 15 =? 14
                   then [Rq_run_test_idle 20000;
                         Rq_exchange_dr (firstn 34 (isdata_to_bitarray
                                                      (DR_ISDATA.mk false false 0)))]
                   else [])) (enumerate (skipn 15 words))).
Proof.
  intros words.
  destruct (@program_fast_ignores_address layout replay 0 45 words [])
    as (Hsame & Hsplit & Hrequests);
    [reflexivity | reflexivity | reflexivity |].
  split; [exact Hsame |]. split; [exact Hsplit |].
  exact (Hrequests replay_reliable).
Defined.

(* An XC9572XL answers the identification, then the readback of a bulk
   erase: a failed one first, a good one second. *)
Lemma interact_always_disables_witness :
  (exists rp t2,
     @lower replay (Rq_write_ir IR_ISPEX) [] = (rp, t2) /\
     interact 0 (mkArgs (Some erase) false [])
              (session [[false; true]])
     = (match rp with
        | Done _ =>
            Raise (GlasgowAppletError
                     (bulk_erase_failed (DR_ISADDRESS.mk false true 0)))
        | Fault => Raise TransportError
        end,
        t2,
        snd (interact_identify (session [[false; true]]))
        ++ snd (@interact_try layout replay 0 xc9572xl
                  (mkArgs (Some erase) false []) [[false; true]])
        ++ [Tap (Rq_write_ir IR_ISPEX) rp])) /\
  (exists rp t2,
     @lower replay (Rq_write_ir IR_ISPEX) [] = (rp, t2) /\
     interact 0 (mkArgs (Some erase) false [])
              (session [[true; false]])
     = (match rp with
        | Done _ => Ok tt
        | Fault => Raise TransportError
        end,
        t2,
        snd (interact_identify (session [[true; false]]))
        ++ snd (@interact_try layout replay 0 xc9572xl
                  (mkArgs (Some erase) false []) [[true; false]])
        ++ [Tap (Rq_write_ir IR_ISPEX) rp])).
Proof.
  split.
  - apply (@interact_always_disables layout replay 0
             (mkArgs (Some erase) false []) xc9572xl
             (session [[false; true]])
             [[false; true]] []);
      [reflexivity | reflexivity | discriminate].
  - apply (@interact_always_disables layout replay 0
             (mkArgs (Some erase) false []) xc9572xl
             (session [[true; false]])
             [[true; false]] []);
      [reflexivity | reflexivity | discriminate].
Defined.

Lemma size_mismatch_rejected_witness :
  exists t1 evs,
    interact 0 (mkArgs (Some program_bit) false (repeat x00 (4 * 1619)))
             (session [])
    = (Raise (GlasgowAppletError (incorrect_bit_file_size 1619 (name xc9572xl))),
       t1, evs) /\
    requests evs
    = [Rq_write_ir IR_IDCODE; Rq_read_dr 32;
       Rq_write_ir IR_USERCODE; Rq_read_dr 32;
       Rq_write_ir IR_ISPEX].
Proof.
  apply (@size_mismatch_rejected layout replay 0
           (mkArgs (Some program_bit) false (repeat x00 (4 * 1619)))
           xc9572xl 1619 (session []) []
           (snd (interact_identify (session [])))).
  - exact replay_reliable.
  - left. reflexivity.
  - reflexivity.
  - vm_compute. reflexivity.
  - cbn. lia.
Defined.

(** C8 as stated fails: with a file of word_count - 1 words the size
    error is raised, but not before any TAP operation: IDCODE and
    USERCODE have been read by then, and ISPEX is selected afterwards. *)
Lemma size_check_follows_tap_operations :
  ~ (exists t1 evs,
       interact 0 (mkArgs (Some program_bit) false (repeat x00 (4 * 1619)))
                (session [])
       = (Raise (GlasgowAppletError (incorrect_bit_file_size 1619 "XC9572XL")),
          t1, evs) /\
       requests evs = []).
Proof.
  intros (t1 & evs & Hrun & Hnone).
  assert (requests (snd (interact 0
            (mkArgs (Some program_bit) false (repeat x00 (4 * 1619)))
            (session [])))
          = [Rq_write_ir IR_IDCODE; Rq_read_dr 32;
             Rq_write_ir IR_USERCODE; Rq_read_dr 32;
             Rq_write_ir IR_ISPEX]) as E by (vm_compute; reflexivity).
  rewrite Hrun in E. cbn [snd] in E. rewrite Hnone in E. discriminate.
Qed.

(** ** Runs of whole operations on a replayed session *)

(* verify-bit against a device that differs from the file at word 42. *)
Example verify_reports_first_mismatch :
  let '(out, _, evs) :=
    interact 1620 (mkArgs (Some verify_bit) false (repeat x00 (4 * 1620)))
      (session (repeat (isdata_bits true 0) 42 ++ [isdata_bits true 5]
                ++ repeat (isdata_bits true 0) 1577)) in
  out = Raise (GlasgowAppletError (verification_failed 42)) /\
  last (requests evs) (Rq_read_dr 0) = Rq_write_ir IR_ISPEX.
Proof. vm_compute. split; reflexivity. Qed.

(* read-bit on a transport that fails on the second word. *)
Example read_fails_on_transport :
  let '(out, _, evs) :=
    @interact layout scripted 1620 (mkArgs (Some read_bit) false [])
      [Done xc9572xl_idcode; Done (bits_of_Z 32 0);
       Done (isdata_bits true 1); Fault] in
  out = Raise TransportError /\
  requests evs
  = [Rq_write_ir IR_IDCODE; Rq_read_dr 32; Rq_write_ir IR_USERCODE; Rq_read_dr 32;
     Rq_write_ir IR_ISPEN; Rq_write_ir IR_FVFY;
     Rq_write_dr (firstn 50 (isconf_to_bitarray
                               (DR_ISCONFIGURATION.mk true true 0 0)));
     Rq_write_ir IR_FVFYI; Rq_read_dr 34; Rq_read_dr 34;
     Rq_write_ir IR_ISPEX].
Proof. vm_compute. split; reflexivity. Qed.

(* A device that never shows a valid word keeps the fast read polling:
   whatever the number of iterations followed, the loop is still running. *)
Example read_polls_without_bound (fuel : nat) :
  @_fvfyi layout replay fuel 1 []
  = (Diverge, [],
     Tap (Rq_write_ir IR_FVFYI) (Done [])
     :: repeat (Tap (Rq_read_dr 34) (Done [])) fuel).
Proof.
  assert (forall words,
            @_fvfyi_loop layout replay fuel 1 words 0 []
            = (Diverge, [], repeat (Tap (Rq_read_dr 34) (Done [])) fuel)) as H.
  { induction fuel as [| fuel IH]; intros words; [reflexivity |].
    cbn [_fvfyi_loop]. change (0 <? 1) with true. cbv iota.
    unfold read_dr. unfold bind at 1.
    change (@call replay (Rq_read_dr 34) [])
      with (@Ok bitarray [], @nil bitarray, [Tap (Rq_read_dr 34) (Done [])]).
    cbv iota beta.
    change (DR_ISDATA.valid (@isdata_from_bitarray layout [])) with false.
    cbv iota. rewrite IH. reflexivity. }
  unfold _fvfyi, write_ir. unfold bind at 1.
  change ((@call replay (Rq_write_ir IR_FVFYI) ;; ret tt) [])
    with (Ok tt, @nil bitarray, [Tap (Rq_write_ir IR_FVFYI) (Done [])]).
  cbv iota beta. rewrite H. reflexivity.
Qed.

(** ** More on the address translation *)

Section AddressMaps.

Local Ltac unfold_addr :=
  unfold bitstream_to_device_address, jed_to_device_address,
    BLOCK_WORDS, GROUP_WORDS, BLOCK_FUSES in *.

(** X1. The word-to-device translation is strictly increasing on all
    word addresses, across blocks as well as inside one. *)
Theorem device_address_strictly_increasing (w1 w2 : Z) :
  w1 < w2 ->
  bitstream_to_device_address w1 < bitstream_to_device_address w2.
Proof.
  intros H. unfold_addr. cbv zeta.
  Z.to_euclidean_division_equations. lia.
Qed.

Lemma device_address_strictly_increasing_witness :
  bitstream_to_device_address 14 < bitstream_to_device_address 15.
Proof. apply (device_address_strictly_increasing 14 15). lia. Defined.

(** X2. The words of the first n blocks stay inside the first 32*n
    device addresses, and inside a block they only use the offsets 0..20:
    the fourth group of eight (N+24..N+31) is never addressed. *)
Theorem device_address_range (n w : Z) :
  0 <= w < 15 * n ->
  0 <= bitstream_to_device_address w < 32 * n /\
  (bitstream_to_device_address w) mod 32 <= 20 /\
  ((bitstream_to_device_address w) mod 32) / 8 < 3.
Proof.
  intros H. unfold_addr. cbv zeta.
  Z.to_euclidean_division_equations. lia.
Qed.

Lemma device_address_range_witness :
  0 <= bitstream_to_device_address 1619 < 32 * 108 /\
  (bitstream_to_device_address 1619) mod 32 <= 20 /\
  ((bitstream_to_device_address 1619) mod 32) / 8 < 3.
Proof. apply (device_address_range 108 1619). lia. Defined.

(** X3. The device addresses that some word is translated to are
    exactly the first five slots of the first three groups of each
    block. *)
Theorem device_address_image (d : Z) :
  (exists w, 0 <= w /\ bitstream_to_device_address w = d) <->
  (0 <= d /\ d mod 8 < 5 /\ (d mod 32) / 8 < 3).
Proof.
  split.
  - intros (w & Hw & <-). unfold_addr. cbv zeta.
    Z.to_euclidean_division_equations. lia.
  - intros (Hd & Hs & Hg).
    exists (15 * (d / 32) + 5 * ((d mod 32) / 8) + d mod 8).
    unfold_addr. cbv zeta.
    Z.to_euclidean_division_equations. lia.
Qed.

(** X4. Inside fuse block b, the 32 fuses of the i-th wide L-field all
    belong to word 15*b + i (i < 9), and the 24 fuses of the j-th narrow
    L-field to word 15*b + 9 + j (j < 6): one L-field, one word. *)
Theorem jed_fields_to_words (b : Z) :
  (forall i o, 0 <= i < 9 -> 0 <= o < 32 ->
     jed_to_device_address (432 * b + 32 * i + o) = 15 * b + i) /\
  (forall j o, 0 <= j < 6 -> 0 <= o < 24 ->
     jed_to_device_address (432 * b + 288 + 24 * j + o) = 15 * b + 9 + j).
Proof.
  split.
  - intros i o Hi Ho. unfold_addr. cbv zeta. change (9 * 32) with 288.
    destruct (Z.ltb_spec ((432 * b + 32 * i + o) mod 432) 288);
      Z.to_euclidean_division_equations; lia.
  - intros j o Hj Ho. unfold_addr. cbv zeta. change (9 * 32) with 288.
    destruct (Z.ltb_spec ((432 * b + 288 + 24 * j + o) mod 432) 288);
      Z.to_euclidean_division_equations; lia.
Qed.

Lemma jed_fields_to_words_witness :
  jed_to_device_address (432 * 6 + 32 * 0 + 7) = 15 * 6 + 0 /\
  jed_to_device_address (432 * 6 + 288 + 24 * 5 + 23) = 15 * 6 + 9 + 5.
Proof.
  destruct (jed_fields_to_words 6) as [Hwide Hnarrow]. split.
  - apply (Hwide 0 7); lia.
  - apply (Hnarrow 5 23); lia.
Defined.

(** X5. The fuse-to-word translation never decreases, and the fuses of
    the first n blocks go to the words of the first n blocks. *)
Theorem jed_address_monotone_in_range :
  (forall a1 a2, a1 <= a2 -> jed_to_device_address a1 <= jed_to_device_address a2) /\
  (forall n a, 0 <= a < 432 * n -> 0 <= jed_to_device_address a < 15 * n).
Proof.
  split.
  - intros a1 a2 H. unfold_addr. cbv zeta. change (9 * 32) with 288.
    destruct (Z.ltb_spec (a1 mod 432) 288), (Z.ltb_spec (a2 mod 432) 288);
      Z.to_euclidean_division_equations; lia.
  - intros n a H. unfold_addr. cbv zeta. change (9 * 32) with 288.
    destruct (Z.ltb_spec (a mod 432) 288);
      Z.to_euclidean_division_equations; lia.
Qed.

Lemma jed_address_monotone_in_range_witness :
  jed_to_device_address 287 <= jed_to_device_address 288 /\
  0 <= jed_to_device_address 46655 < 15 * 108.
Proof.
  destruct jed_address_monotone_in_range as [Hmono Hrange]. split.
  - apply (Hmono 287 288). lia.
  - apply (Hrange 108 46655). lia.
Defined.

End AddressMaps.

(** ** More on the programming engine *)

Section EngineDiscipline.

Context {arch : Arch} {iface : TAP}.

(** *** Stopping at the first transport failure *)

Lemma fault_free_app (evs1 evs2 : list event) :
  fault_free (evs1 ++ evs2) <-> fault_free evs1 /\ fault_free evs2.
Proof. unfold fault_free. rewrite forallb_app. apply andb_true_iff. Qed.

Lemma fs_ret {A : Type} (a : A) (t : tap) : fail_stop (ret a t).
Proof. left. split; [reflexivity | discriminate]. Qed.

Lemma fs_raise {A : Type} (e : exn) (t : tap) :
  e <> TransportError -> fail_stop (@raise _ A e t).
Proof. intros H. left. split; [reflexivity | congruence]. Qed.

Lemma fs_diverge {A : Type} (t : tap) : fail_stop (@diverge _ A t).
Proof. left. split; [reflexivity | discriminate]. Qed.

Lemma fs_lift {A : Type} (o : outcome A) (t : tap) :
  o <> Raise TransportError -> fail_stop (lift o t).
Proof. intros H. left. split; [reflexivity | exact H]. Qed.

Lemma fs_emit_warn (w : warning) (t : tap) : fail_stop (emit (Warn w) t).
Proof. left. split; [reflexivity | discriminate]. Qed.

Lemma fs_emit_write (data : list byte) (t : tap) : fail_stop (emit (FileWrite data) t).
Proof. left. split; [reflexivity | discriminate]. Qed.

Lemma fs_call (rq : request) (t : tap) : fail_stop (call rq t).
Proof.
  unfold call. destruct (lower rq t) as [[bits |] t1].
  - left. split; [reflexivity | discriminate].
  - right. split; [reflexivity |]. exists [], rq. split; reflexivity.
Qed.

Lemma fs_bind {A B : Type} (m : M A) (k : A -> M B) :
  (forall t, fail_stop (m t)) ->
  (forall a t, fail_stop (k a t)) ->
  forall t, fail_stop (bind m k t).
Proof.
  intros Hm Hk t. unfold bind. specialize (Hm t).
  destruct (m t) as [[[a | e |] t1] evs1];
    [| destruct Hm as [[F N] | [E X]];
       [left; split; [exact F | congruence]
       | right; split; [congruence | exact X]] ..].
  specialize (Hk a t1). destruct (k a t1) as [[out t2] evs2].
  destruct Hm as [[F1 _] | [E _]]; [| discriminate].
  destruct Hk as [[F2 N] | [E (evs0 & rq & -> & F0)]].
  - left. split; [apply fault_free_app; auto | exact N].
  - right. split; [exact E |].
    exists (evs1 ++ evs0), rq. split; [apply app_assoc |].
    apply fault_free_app; auto.
Qed.

Lemma fs_for {A : Type} (body : A -> M unit) (xs : list A) :
  (forall x t, fail_stop (body x t)) ->
  forall t, fail_stop (for_ xs body t).
Proof.
  intros Hb. induction xs as [| x rest IH]; cbn [for_].
  - apply fs_ret.
  - apply fs_bind; [apply Hb | intros _; exact IH].
Qed.

Lemma fs_for_acc {A S : Type} (body : S -> A -> M S) (xs : list A) :
  (forall s x t, fail_stop (body s x t)) ->
  forall s t, fail_stop (for_acc xs s body t).
Proof.
  intros Hb. induction xs as [| x rest IH]; intros s; cbn [for_acc].
  - apply fs_ret.
  - apply fs_bind; [apply Hb | intros s1; apply IH].
Qed.

Lemma fs_unit_call (rq : request) (t : tap) : fail_stop ((call rq ;; ret tt) t).
Proof. revert t. apply fs_bind; [apply fs_call | intros; apply fs_ret]. Qed.

Create HintDb fail_stop.
#[local] Hint Resolve fs_ret fs_diverge fs_emit_warn fs_emit_write fs_call
  fs_unit_call : fail_stop.

Local Ltac fs :=
  repeat first
    [ progress intros
    | apply fs_bind
    | apply fs_for
    | apply fs_for_acc
    | apply fs_raise; discriminate
    | solve [auto with fail_stop]
    | match goal with
      | |- fail_stop ((if ?c then _ else _) _) => destruct c
      | |- fail_stop (when ?c _ _) => destruct c; cbn [when]
      | |- fail_stop (assert_ ?c _) => destruct c; cbn [assert_]
      | |- fail_stop ((let '(_, _) := ?p in _) _) => destruct p
      end
    | progress cbv zeta ].

Lemma fs_fvfyi_loop (fuel : nat) (count : Z) :
  forall words index t, fail_stop (_fvfyi_loop fuel count words index t).
Proof.
  induction fuel as [| fuel IH]; intros words index t; cbn [_fvfyi_loop];
    destruct (index <? count); try apply fs_ret; try apply fs_diverge.
  revert t. apply fs_bind; [apply fs_call |].
  intros bits t. destruct (DR_ISDATA.valid _); apply IH.
Qed.

Lemma fs_fvfy (address count : Z) (t : tap) : fail_stop (_fvfy address count t).
Proof. revert t. unfold _fvfy, _fvfy_word, write_ir, write_dr, exchange_dr. fs. Qed.

Lemma fs_fvfyi (fuel : nat) (count : Z) (t : tap) : fail_stop (_fvfyi fuel count t).
Proof.
  revert t. unfold _fvfyi, write_ir.
  apply fs_bind; [apply fs_unit_call | intros; apply fs_fvfyi_loop].
Qed.

Lemma fs_read (fuel : nat) (address count : Z) (fast : bool) (t : tap) :
  fail_stop (read fuel address count fast t).
Proof.
  unfold read. destruct fast; [| apply fs_fvfy].
  revert t. apply fs_bind; intros; [apply fs_fvfy | apply fs_fvfyi].
Qed.

Lemma fs_bulk_erase (t : tap) : fail_stop (bulk_erase t).
Proof.
  revert t. unfold bulk_erase, write_ir, write_dr, run_test_idle, read_dr. fs.
Qed.

Lemma fs_fpgm (address : Z) (words : list Z) (t : tap) :
  fail_stop (_fpgm address words t).
Proof.
  revert t.
  unfold _fpgm, _fpgm_word, write_ir, write_dr, run_test_idle, exchange_dr. fs.
Qed.

Lemma fs_fpgmi (words : list Z) (t : tap) : fail_stop (_fpgmi words t).
Proof.
  revert t.
  unfold _fpgmi, _fpgmi_word, write_ir, write_dr, run_test_idle, exchange_dr. fs.
Qed.

Lemma fs_program (address : Z) (words : list Z) (fast : bool) (t : tap) :
  fail_stop (program address words fast t).
Proof.
  revert t. unfold program. apply fs_bind; [fs |].
  intros _ t. destruct fast; [| apply fs_fpgm].
  revert t. apply fs_bind; intros; [apply fs_fpgm | apply fs_fpgmi].
Qed.

(** X6. The engine neither retries nor goes on after a failure of the
    transport: in a run of [identify], [read_usercode], [read], [program]
    or [bulk_erase], a request that fails is the last event and the run
    raises the transport error; and a run in which no request fails does
    not raise it. *)
Theorem engine_stops_at_transport_failure (t : tap) :
  fail_stop (identify t) /\
  fail_stop (read_usercode t) /\
  (forall fuel address count fast, fail_stop (read fuel address count fast t)) /\
  (forall address words fast, fail_stop (program address words fast t)) /\
  fail_stop (bulk_erase t).
Proof.
  repeat split.
  - revert t. unfold identify, write_ir, read_dr. fs.
  - revert t. unfold read_usercode, write_ir, read_dr. fs.
  - intros. apply fs_read.
  - intros. apply fs_program.
  - apply fs_bulk_erase.
Qed.

End EngineDiscipline.

Section ReadOnlyOperations.

Context {arch : Arch} {iface : TAP}.

(** *** Operations that leave the device as it is *)

Lemma selected_app (evs1 evs2 : list event) :
  selected (evs1 ++ evs2) = selected evs1 ++ selected evs2.
Proof. apply flat_map_app. Qed.

Lemma harmless_app {A B C : Type} (o1 : outcome A) (o2 : outcome B) (o3 : outcome C)
    (t1 t2 t3 : tap) (evs1 evs2 : list event) :
  harmless (o1, t1, evs1) -> harmless (o2, t2, evs2) ->
  harmless (o3, t3, evs1 ++ evs2).
Proof.
  unfold harmless. cbn [snd]. intros H1 H2.
  rewrite selected_app, forallb_app, H1, H2. reflexivity.
Qed.

Lemma hl_ret {A : Type} (a : A) (t : tap) : harmless (ret a t).
Proof. reflexivity. Qed.

Lemma hl_raise {A : Type} (e : exn) (t : tap) : harmless (@raise _ A e t).
Proof. reflexivity. Qed.

Lemma hl_diverge {A : Type} (t : tap) : harmless (@diverge _ A t).
Proof. reflexivity. Qed.

Lemma hl_lift {A : Type} (o : outcome A) (t : tap) : harmless (lift o t).
Proof. reflexivity. Qed.

Lemma hl_emit_warn (w : warning) (t : tap) : harmless (emit (Warn w) t).
Proof. reflexivity. Qed.

Lemma hl_emit_write (data : list byte) (t : tap) : harmless (emit (FileWrite data) t).
Proof. reflexivity. Qed.

Lemma hl_call (rq : request) (t : tap) :
  match rq with Rq_write_ir code => destructive code = false | _ => True end ->
  harmless (call rq t).
Proof.
  intros H. unfold call, harmless.
  destruct (lower rq t) as [[bits |] t1]; destruct rq;
    cbn [snd selected flat_map app forallb]; rewrite ?H; reflexivity.
Qed.

Lemma hl_bind {A B : Type} (m : M A) (k : A -> M B) :
  (forall t, harmless (m t)) ->
  (forall a t, harmless (k a t)) ->
  forall t, harmless (bind m k t).
Proof.
  intros Hm Hk t. unfold bind. specialize (Hm t).
  destruct (m t) as [[[a | e |] t1] evs1]; try exact Hm.
  specialize (Hk a t1). destruct (k a t1) as [[out t2] evs2].
  exact (harmless_app _ _ _ _ _ _ _ _ Hm Hk).
Qed.

Lemma hl_try_finally {A : Type} (body : M A) (final : M unit) :
  (forall t, harmless (body t)) ->
  (forall t, harmless (final t)) ->
  forall t, harmless (try_finally body final t).
Proof.
  intros Hb Hf t. unfold try_finally. specialize (Hb t).
  destruct (body t) as [[out t1] evs1]. specialize (Hf t1).
  destruct (final t1) as [[[[] | e |] t2] evs2];
    destruct out; try exact Hb; exact (harmless_app _ _ _ _ _ _ _ _ Hb Hf).
Qed.

Lemma hl_for {A : Type} (body : A -> M unit) (xs : list A) :
  (forall x t, harmless (body x t)) ->
  forall t, harmless (for_ xs body t).
Proof.
  intros Hb. induction xs as [| x rest IH]; cbn [for_].
  - apply hl_ret.
  - apply hl_bind; [apply Hb | intros _; exact IH].
Qed.

Lemma hl_for_acc {A S : Type} (body : S -> A -> M S) (xs : list A) :
  (forall s x t, harmless (body s x t)) ->
  forall s t, harmless (for_acc xs s body t).
Proof.
  intros Hb. induction xs as [| x rest IH]; intros s; cbn [for_acc].
  - apply hl_ret.
  - apply hl_bind; [apply Hb | intros s1; apply IH].
Qed.

Lemma hl_write_ir (code : ir) (t : tap) :
  destructive code = false -> harmless (write_ir code t).
Proof.
  intros H. revert t. unfold write_ir.
  apply hl_bind; [intros; apply hl_call; exact H | intros; apply hl_ret].
Qed.

Lemma hl_read_dr (count : Z) (t : tap) : harmless (read_dr count t).
Proof. apply hl_call. exact I. Qed.

Lemma hl_exchange_dr (bits : bitarray) (t : tap) : harmless (exchange_dr bits t).
Proof. apply hl_call. exact I. Qed.

Lemma hl_write_dr (bits : bitarray) (t : tap) : harmless (write_dr bits t).
Proof.
  revert t. unfold write_dr.
  apply hl_bind; [intros; apply hl_call; exact I | intros; apply hl_ret].
Qed.

Create HintDb harmless.
#[local] Hint Resolve hl_ret hl_raise hl_diverge hl_lift hl_emit_warn hl_emit_write
  hl_read_dr hl_exchange_dr hl_write_dr : harmless.

Local Ltac hl :=
  repeat first
    [ progress intros
    | solve [auto with harmless]
    | apply hl_write_ir; reflexivity
    | apply hl_try_finally
    | apply hl_for
    | apply hl_for_acc
    | apply hl_bind
    | match goal with
      | |- harmless ((if ?c then _ else _) _) => destruct c
      | |- harmless ((let '(_, _) := ?p in _) _) => destruct p
      | |- harmless ((match ?d with Some _ => _ | None => _ end) _) => destruct d
      end
    | progress cbv zeta ].

Lemma hl_fvfyi_loop (fuel : nat) (count : Z) :
  forall words index t, harmless (_fvfyi_loop fuel count words index t).
Proof.
  induction fuel as [| fuel IH]; intros words index t; cbn [_fvfyi_loop];
    destruct (index <? count); try apply hl_ret; try apply hl_diverge.
  revert t. apply hl_bind; [apply hl_read_dr |].
  intros bits t. destruct (DR_ISDATA.valid _); apply IH.
Qed.

Lemma hl_read (fuel : nat) (address count : Z) (fast : bool) (t : tap) :
  harmless (read fuel address count fast t).
Proof.
  revert t. unfold read, _fvfy, _fvfy_word, _fvfyi.
  destruct fast; hl; apply hl_fvfyi_loop.
Qed.

(** X7. Whatever the transport answers and whatever the file holds,
    [interact] selects none of the erasing and programming instructions
    (FBULK, FPGM, FPGMI) unless the operation is program-bit or erase:
    read-bit and verify-bit leave the contents of the device alone. *)
Theorem read_and_verify_never_program (fuel : nat) (args : Args) (t : tap) :
  operation args <> Some program_bit ->
  operation args <> Some erase ->
  forallb (fun code => negb (destructive code))
          (selected (snd (interact fuel args t))) = true.
Proof.
  intros Hp He. change (harmless (interact fuel args t)). revert t.
  unfold interact, interact_identify, identify, read_usercode, interact_try,
    verify_word, programming_enable, programming_disable.
  destruct (operation args) as [[| | |] |]; try congruence;
    cbn [operation_is Operation_eqb when orb]; hl; apply hl_read.
Qed.

End ReadOnlyOperations.

Lemma read_and_verify_never_program_witness :
  forallb (fun code => negb (destructive code))
          (selected (snd (interact 1620
             (mkArgs (Some verify_bit) false (repeat x00 (4 * 1620)))
             (session (repeat (isdata_bits true 0) 1620))))) = true.
Proof.
  apply (@read_and_verify_never_program layout replay 1620
           (mkArgs (Some verify_bit) false (repeat x00 (4 * 1620)))
           (session (repeat (isdata_bits true 0) 1620)));
    discriminate.
Defined.

Section EngineOperations.

Context {arch : Arch} {iface : TAP}.

(** *** Entry checks and whole operations *)

(** X8. [program] checks its arguments before it touches the TAP: with
    an address that is not a multiple of 15, or a number of words that is
    not, it raises the assertion error and has sent nothing, on the fast
    and on the slow path. *)
Theorem program_rejects_misaligned
    (address : Z) (words : list Z) (fast : bool) (t : tap) :
  address mod 15 <> 0 \/ Z.of_nat (length words) mod 15 <> 0 ->
  program address words fast t = (Raise AssertionError, t, []).
Proof.
  intros H. unfold program, assert_, BLOCK_WORDS.
  assert ((address mod 15 =? 0) && (Z.of_nat (length words) mod 15 =? 0) = false)
    as E.
  { apply andb_false_iff. destruct H as [H | H]; [left | right];
      apply Z.eqb_neq; exact H. }
  rewrite E. reflexivity.
Qed.

Lemma fvfy_seed (address : Z) (t : tap) :
  reliable ->
  let rq := Rq_write_dr (firstn 50 (isconf_to_bitarray
              (DR_ISCONFIGURATION.mk true true
                 (bitstream_to_device_address address) 0))) in
  _fvfy address 0 t
  = (Ok [], next rq (next (Rq_write_ir IR_FVFY) t),
     [Tap (Rq_write_ir IR_FVFY) (Done (answer (Rq_write_ir IR_FVFY) t));
      Tap rq (Done (answer rq (next (Rq_write_ir IR_FVFY) t)))]).
Proof.
  intros R rq. unfold _fvfy, write_ir, write_dr. cbv zeta. fold rq.
  unfold bind at 1. rewrite (unit_call_reliable _ _ R).
  unfold bind at 1. rewrite (unit_call_reliable _ _ R).
  reflexivity.
Qed.

(** X9. The fast read sends the start address once, with FVFY, and then
    only polls: on a transport that does not fail, and when the stream of
    responses after the FVFYI select holds at least [count] valid ones,
    [read(address, count, fast=True)] returns the data of the first
    [count] valid responses, and its requests are the FVFY select, the
    address write, the FVFYI select and 34-bit reads. *)
Theorem read_fast_seeds_then_polls (fuel : nat) (address count : Z) (t : tap) :
  reliable ->
  let seed := Rq_write_dr (firstn 50 (isconf_to_bitarray
                (DR_ISCONFIGURATION.mk true true
                   (bitstream_to_device_address address) 0))) in
  let stream :=
    read_stream fuel
      (next (Rq_write_ir IR_FVFYI) (next seed (next (Rq_write_ir IR_FVFY) t))) in
  count <= Z.of_nat (length (filter DR_ISDATA.valid stream)) ->
  exists t1 evs k,
    read fuel address count true t
    = (Ok (firstn (Z.to_nat count)
                  (map DR_ISDATA.data (filter DR_ISDATA.valid stream))),
       t1, evs) /\
    (k <= fuel)%nat /\
    requests evs
    = [Rq_write_ir IR_FVFY; seed; Rq_write_ir IR_FVFYI] ++ repeat (Rq_read_dr 34) k.
Proof.
  intros R seed stream Hn. unfold read.
  pose proof (fvfy_seed address t R) as Hseed. cbv zeta in Hseed. fold seed in Hseed.
  set (t0 := next seed (next (Rq_write_ir IR_FVFY) t)) in *.
  destruct (fvfyi_loop_run fuel count [] 0 (next (Rq_write_ir IR_FVFYI) t0) R)
    as (t1 & evs & k & Hrun & Hk & Hrq & _).
  { fold stream. lia. }
  rewrite Z.sub_0_r in Hrun. fold stream in Hrun. cbn [app] in Hrun.
  assert (_fvfyi fuel count t0
          = (Ok (firstn (Z.to_nat count)
                        (map DR_ISDATA.data (filter DR_ISDATA.valid stream))),
             t1,
             Tap (Rq_write_ir IR_FVFYI) (Done (answer (Rq_write_ir IR_FVFYI) t0))
             :: evs)) as Hpoll.
  { unfold _fvfyi, write_ir. unfold bind at 1.
    rewrite (unit_call_reliable _ _ R), Hrun. reflexivity. }
  eexists t1, _, k. split; [exact (bind_Ok _ _ _ _ _ _ _ _ _ Hseed Hpoll) |].
  split; [exact Hk |].
  cbn [app]. change (requests (?a :: ?b :: ?c :: evs))
    with (requests [a; b; c] ++ requests evs).
  rewrite Hrq. reflexivity.
Qed.

(** X10. A device that the database does not know stops [interact] right
    after the IDCODE read: the error names the IDCODE, and neither the
    USERCODE read, nor ISPEN, nor ISPEX is sent. *)
Theorem interact_unknown_device (fuel : nat) (args : Args) (t : tap) :
  reliable ->
  let idcode :=
    idcode_from_bitarray (answer (Rq_read_dr 32) (next (Rq_write_ir IR_IDCODE) t)) in
  devices (DR_IDCODE.mfg_id idcode) (DR_IDCODE.part_id idcode) = None ->
  exists t1 evs,
    interact fuel args t
    = (Raise (GlasgowAppletError (unknown_device idcode)), t1, evs) /\
    requests evs = [Rq_write_ir IR_IDCODE; Rq_read_dr 32].
Proof.
  intros R idcode Hnone.
  unfold interact, interact_identify, identify, write_ir, read_dr.
  unfold bind at 1. unfold bind at 1. unfold bind at 1.
  rewrite (unit_call_reliable _ _ R).
  unfold bind at 1. rewrite (call_reliable _ _ R).
  cbv zeta. fold idcode. cbn [ret]. rewrite Hnone.
  eexists _, _. split; reflexivity.
Qed.



End EngineOperations.

Lemma program_rejects_misaligned_witness :
  @program layout replay 7 (map Z.of_nat (seq 0 15)) true []
  = (Raise AssertionError, [], []).
Proof.
  apply (@program_rejects_misaligned layout replay 7 (map Z.of_nat (seq 0 15)) true []).
  left. discriminate.
Defined.

Lemma read_fast_seeds_then_polls_witness :
  exists t1 evs k,
    @read layout replay 4 30 2 true
      [isdata_bits false 0; isdata_bits true 11; isdata_bits true 12]
    = (Ok [11; 12], t1, evs) /\
    (k <= 4)%nat /\
    requests evs
    = [Rq_write_ir IR_FVFY;
       Rq_write_dr (firstn 50 (isconf_to_bitarray
                      (DR_ISCONFIGURATION.mk true true
                         (bitstream_to_device_address 30) 0)));
       Rq_write_ir IR_FVFYI] ++ repeat (Rq_read_dr 34) k.
Proof.
  apply (@read_fast_seeds_then_polls layout replay 4 30 2
           [isdata_bits false 0; isdata_bits true 11; isdata_bits true 12]
           replay_reliable).
  vm_compute. discriminate.
Defined.

Lemma interact_unknown_device_witness :
  exists t1 evs,
    @interact layout replay 0 (mkArgs (Some erase) false []) [bits_of_Z 32 1]
    = (Raise (GlasgowAppletError (unknown_device (DR_IDCODE.mk 0 0 0))), t1, evs) /\
    requests evs = [Rq_write_ir IR_IDCODE; Rq_read_dr 32].
Proof.
  apply (@interact_unknown_device layout replay 0 (mkArgs (Some erase) false [])
           [bits_of_Z 32 1] replay_reliable).
  reflexivity.
Defined.


Section BitFiles.

Context {arch : Arch} {iface : TAP}.

(** *** The .bit file and the comparison of verify-bit *)

Lemma Z_of_byte_range (b : byte) : 0 <= Z_of_byte b < 256.
Proof.
  unfold Z_of_byte. pose proof (Byte.to_N_bounded b). lia.
Qed.

Lemma Z_of_byte_of_Z (z : Z) : Z_of_byte (byte_of_Z z) = z mod 256.
Proof.
  unfold Z_of_byte, byte_of_Z.
  pose proof (Z.mod_pos_bound z 256 ltac:(lia)) as Hz.
  destruct (Byte.of_N (Z.to_N (z mod 256))) as [b |] eqn:E.
  - apply Byte.to_of_N in E. rewrite E. lia.
  - apply Byte.of_N_None_iff in E. lia.
Qed.

Lemma unpack_range (b0 b1 b2 b3 : byte) : 0 <= unpack_L b0 b1 b2 b3 < 2 ^ 32.
Proof.
  unfold unpack_L.
  pose proof (Z_of_byte_range b0). pose proof (Z_of_byte_range b1).
  pose proof (Z_of_byte_range b2). pose proof (Z_of_byte_range b3).
  lia.
Qed.

Lemma pack_unpack (word : Z) :
  0 <= word < 2 ^ 32 ->
  exists b0 b1 b2 b3,
    pack_L word = Ok [b0; b1; b2; b3] /\ unpack_L b0 b1 b2 b3 = word.
Proof.
  intros H. unfold pack_L.
  assert ((0 <=? word) && (word <? 2 ^ 32) = true) as E by lia.
  rewrite E. do 4 eexists. split; [reflexivity |].
  unfold unpack_L. rewrite !Z_of_byte_of_Z.
  change (2 ^ 8) with 256. change (2 ^ 16) with 65536.
  change (2 ^ 24) with 16777216. change (2 ^ 32) with 4294967296 in H.
  Z.to_euclidean_division_equations. lia.
Qed.

Lemma write_words_run (words : list Z) (t : tap) :
  Forall (fun word => 0 <= word < 2 ^ 32) words ->
  exists evs,
    for_ words write_word t = (Ok tt, t, evs) /\
    requests evs = [] /\
    length (written evs) = (4 * length words)%nat /\
    forall acc, read_words (written evs) acc = Ok (acc ++ words).
Proof.
  intros Hwords. induction Hwords as [| word rest Hword _ IH].
  - exists []. repeat split. intros acc. cbn. rewrite app_nil_r. reflexivity.
  - destruct IH as (evs & Hrun & Hrq & Hlen & Hread).
    destruct (pack_unpack word Hword) as (b0 & b1 & b2 & b3 & Hpack & Hunpack).
    exists (FileWrite [b0; b1; b2; b3] :: evs).
    assert (write_word word t = (Ok tt, t, [FileWrite [b0; b1; b2; b3]])) as Hw.
    { unfold write_word, bind, lift. rewrite Hpack. reflexivity. }
    split; [exact (bind_Ok _ _ _ _ _ _ _ _ _ Hw Hrun) |].
    split; [exact Hrq |].
    split.
    + change (written (FileWrite [b0; b1; b2; b3] :: evs))
        with ([b0; b1; b2; b3] ++ written evs).
      rewrite length_app, Hlen. cbn [length]. lia.
    + intros acc.
      change (written (FileWrite [b0; b1; b2; b3] :: evs))
        with (b0 :: b1 :: b2 :: b3 :: written evs).
      cbn [read_words]. rewrite Hread, Hunpack, <- app_assoc. reflexivity.
Qed.

(** X12. The file written by read-bit is the file that program-bit and
    verify-bit read: for words of 32 bits, the loop that writes them
    raises nothing and sends nothing to the TAP, and the loop that reads
    the bytes written gives the same words back. *)
Theorem bit_file_round_trip (words : list Z) (t : tap) :
  Forall (fun word => 0 <= word < 2 ^ 32) words ->
  exists evs,
    for_ words write_word t = (Ok tt, t, evs) /\
    requests evs = [] /\
    length (written evs) = (4 * length words)%nat /\
    read_words (written evs) [] = Ok words.
Proof.
  intros Hwords.
  destruct (write_words_run words t Hwords) as (evs & Hrun & Hrq & Hlen & Hread).
  exists evs. repeat split; auto.
Qed.

Lemma read_words_chunks (k : nat) :
  forall (data : list byte) (words : list Z),
    (length data = 4 * k)%nat ->
    exists more,
      length more = k /\
      Forall (fun word => 0 <= word < 2 ^ 32) more /\
      read_words data words = Ok (words ++ more).
Proof.
  induction k as [| k IH]; intros data words Hlen.
  - destruct data; [| discriminate]. exists [].
    rewrite app_nil_r. repeat split. constructor.
  - destruct data as [| b0 [| b1 [| b2 [| b3 rest]]]]; cbn in Hlen; try lia.
    destruct (IH rest (words ++ [unpack_L b0 b1 b2 b3]))
      as (more & Hm & Hr & Hrun); [lia |].
    exists (unpack_L b0 b1 b2 b3 :: more). split; [cbn; lia |].
    split; [constructor; [apply unpack_range | exact Hr] |].
    cbn [read_words]. rewrite Hrun, <- app_assoc. reflexivity.
Qed.

Lemma read_words_ragged (k : nat) :
  forall (data : list byte) (words : list Z) (r : nat),
    (0 < r < 4)%nat ->
    (length data = 4 * k + r)%nat ->
    read_words data words = Raise struct_error.
Proof.
  induction k as [| k IH]; intros data words r Hr Hlen.
  - destruct data as [| b0 [| b1 [| b2 [| b3 rest]]]]; cbn in Hlen; try lia;
      reflexivity.
  - destruct data as [| b0 [| b1 [| b2 [| b3 rest]]]]; cbn in Hlen; try lia.
    cbn [read_words]. apply (IH rest _ r Hr). lia.
Qed.

(** X13. Reading a .bit file: a file of 4*k bytes gives k words, each
    below 2^32; a file whose length is not a multiple of four raises the
    struct error, whatever the words before the ragged end. *)
Theorem read_words_whole_or_error (data : list byte) :
  ((length data mod 4 = 0)%nat ->
   exists words,
     read_words data [] = Ok words /\
     length data = (4 * length words)%nat /\
     Forall (fun word => 0 <= word < 2 ^ 32) words) /\
  ((length data mod 4 <> 0)%nat ->
   read_words data [] = Raise struct_error).
Proof.
  pose proof (Nat.div_mod_eq (length data) 4) as Hdm.
  pose proof (Nat.mod_upper_bound (length data) 4 ltac:(lia)) as Hlt.
  split; intros Hmod.
  - destruct (read_words_chunks (length data / 4) data []) as (words & Hk & Hr & Hrun);
      [lia |].
    exists words. cbn [app] in Hrun. repeat split; auto. lia.
  - apply (read_words_ragged (length data / 4) data [] (length data mod 4)); lia.
Qed.

Lemma enumerate_from_cons {A : Type} (start : nat) (x : A) (xs : list A) :
  enumerate_from start (x :: xs) = (Z.of_nat start, x) :: enumerate_from (S start) xs.
Proof. reflexivity. Qed.

Lemma verify_equal_from (start : nat) (common extra1 extra2 : list Z) (t : tap) :
  extra1 = [] \/ extra2 = [] ->
  for_ (enumerate_from start (combine (common ++ extra1) (common ++ extra2)))
       verify_word t
  = (Ok tt, t, []).
Proof.
  intros Hextra. revert start.
  induction common as [| word rest IH]; intros start.
  - cbn [app]. destruct Hextra as [-> | ->]; [reflexivity |].
    destruct extra1; reflexivity.
  - cbn [app combine]. rewrite enumerate_from_cons. cbn [for_].
    unfold bind, verify_word at 1. rewrite Z.eqb_refl. cbn [negb ret].
    rewrite IH. reflexivity.
Qed.

Lemma verify_differ_from (start : nat) (prefix rest1 rest2 : list Z) (x y : Z)
    (t : tap) :
  x <> y ->
  for_ (enumerate_from start (combine (prefix ++ x :: rest1) (prefix ++ y :: rest2)))
       verify_word t
  = (Raise (GlasgowAppletError
              (verification_failed (Z.of_nat (start + length prefix)))),
     t, []).
Proof.
  intros Hxy. revert start.
  induction prefix as [| word rest IH]; intros start.
  - cbn [app combine length]. rewrite enumerate_from_cons. cbn [for_].
    unfold bind, verify_word.
    assert ((x =? y) = false) as E by (apply Z.eqb_neq; exact Hxy).
    rewrite E, Nat.add_0_r. reflexivity.
  - cbn [app combine length]. rewrite enumerate_from_cons. cbn [for_].
    unfold bind, verify_word at 1. rewrite Z.eqb_refl. cbn [negb ret].
    rewrite (IH (S start)).
    replace (S start + length rest)%nat with (start + S (length rest))%nat by lia.
    reflexivity.
Qed.

(** X14. The comparison of verify-bit sends nothing to the TAP and stops
    at the first word that differs, naming its offset; words are compared
    in pairs, so it succeeds when one list is a prefix of the other. *)
Theorem verify_loop_first_difference (t : tap) :
  (forall prefix x y rest1 rest2,
     x <> y ->
     for_ (enumerate (combine (prefix ++ x :: rest1) (prefix ++ y :: rest2)))
          verify_word t
     = (Raise (GlasgowAppletError (verification_failed (Z.of_nat (length prefix)))),
        t, [])) /\
  (forall common extra,
     for_ (enumerate (combine common (common ++ extra))) verify_word t
     = (Ok tt, t, []) /\
     for_ (enumerate (combine (common ++ extra) common)) verify_word t
     = (Ok tt, t, [])).
Proof.
  split.
  - intros prefix x y rest1 rest2 Hxy.
    exact (verify_differ_from 0 prefix rest1 rest2 x y t Hxy).
  - intros common extra. unfold enumerate. split.
    + rewrite <- (app_nil_r common) at 1.
      apply verify_equal_from. left. reflexivity.
    + rewrite <- (app_nil_r common) at 2.
      apply verify_equal_from. right. reflexivity.
Qed.

End BitFiles.

Lemma bit_file_round_trip_witness :
  exists evs,
    @for_ replay Z [1; 4294967295; 305419896] (@write_word replay) []
    = (Ok tt, [], evs) /\
    requests evs = [] /\
    length (written evs) = (4 * 3)%nat /\
    read_words (written evs) [] = Ok [1; 4294967295; 305419896].
Proof.
  apply (@bit_file_round_trip replay [1; 4294967295; 305419896] []).
  repeat constructor; cbn; lia.
Defined.

Lemma read_words_whole_or_error_witness :
  (exists words,
     read_words [x78; x56; x34; x12] [] = Ok words /\
     length [x78; x56; x34; x12] = (4 * length words)%nat /\
     Forall (fun word => 0 <= word < 2 ^ 32) words) /\
  read_words [x78; x56; x34; x12; xff] [] = Raise struct_error.
Proof.
  split.
  - apply (proj1 (read_words_whole_or_error [x78; x56; x34; x12])). reflexivity.
  - apply (proj2 (read_words_whole_or_error [x78; x56; x34; x12; xff])). discriminate.
Defined.

Lemma verify_loop_first_difference_witness :
  @for_ replay _ (enumerate (combine ([7; 8] ++ 1 :: [9]) ([7; 8] ++ 2 :: [9])))
        (@verify_word replay) []
  = (Raise (GlasgowAppletError (verification_failed (Z.of_nat (length [7; 8])))),
     [], []).
Proof.
  apply (proj1 (@verify_loop_first_difference replay []) [7; 8] 1 2 [9] [9]).
  discriminate.
Defined.

Section AutoincrementProgramming.

Context {arch : Arch} {iface : TAP}.

(** *** Autoincrement programming, with its warnings *)




End AutoincrementProgramming.


(** ** The USERCODE of a .bit file *)

Section UsercodeTool.

Lemma usercode_step_digit (usercode usercode_word : Z) :
  usercode_step usercode usercode_word
  = 4 * usercode + Z.land (Z.shiftr usercode_word 6) 3.
Proof.
  unfold usercode_step.
  rewrite <- Z.lxor_lor, <- Z.add_nocarry_lxor.
  - rewrite Z.shiftl_mul_pow2 by lia. change (2 ^ 2) with 4. lia.
  - apply Z.bits_inj'. intros n Hn. rewrite Z.land_spec, Z.bits_0.
    destruct (Z.lt_ge_cases n 2).
    + rewrite Z.shiftl_spec_low by lia. reflexivity.
    + rewrite Z.land_spec. change 3 with (Z.ones 2).
      rewrite Z.ones_spec_high by lia. rewrite !andb_false_r. reflexivity.
  - apply Z.bits_inj'. intros n Hn. rewrite Z.land_spec, Z.bits_0.
    destruct (Z.lt_ge_cases n 2).
    + rewrite Z.shiftl_spec_low by lia. reflexivity.
    + rewrite Z.land_spec. change 3 with (Z.ones 2).
      rewrite Z.ones_spec_high by lia. rewrite !andb_false_r. reflexivity.
Qed.

Lemma half_nibble_range (usercode_word : Z) :
  0 <= Z.land (Z.shiftr usercode_word 6) 3 < 4.
Proof.
  change 3 with (Z.ones 2). rewrite Z.land_ones by lia.
  apply Z.mod_pos_bound. lia.
Qed.

Lemma digits4_above (count : nat) (high value : Z) :
  0 <= value ->
  digits4 count (high * 4 ^ Z.of_nat count + value) = digits4 count value.
Proof.
  intros Hv. revert high.
  induction count as [| count IH]; intros high; [reflexivity |].
  cbn [digits4]. f_equal.
  - rewrite Nat2Z.inj_succ, Z.pow_succ_r by lia.
    replace (high * (4 * 4 ^ Z.of_nat count) + value)
      with (value + (high * 4) * 4 ^ Z.of_nat count) by lia.
    rewrite Z.div_add by (apply Z.pow_nonzero; lia).
    rewrite Z.add_mod, Z.mod_mul, Z.add_0_r, Z.mod_mod by lia. reflexivity.
  - rewrite Nat2Z.inj_succ, Z.pow_succ_r by lia.
    replace (high * (4 * 4 ^ Z.of_nat count) + value)
      with ((high * 4) * 4 ^ Z.of_nat count + value) by lia.
    apply IH.
Qed.

(* The loop over the sixteen words builds the number whose base-4
   digits are the half-nibbles, in the order of the words. *)
Lemma usercode_fold (usercode_words : list Z) :
  exists value,
    0 <= value < 4 ^ Z.of_nat (length usercode_words) /\
    digits4 (length usercode_words) value
    = map (fun w => Z.land (Z.shiftr w 6) 3) usercode_words /\
    forall usercode,
      fold_left usercode_step usercode_words usercode
      = usercode * 4 ^ Z.of_nat (length usercode_words) + value.
Proof.
  induction usercode_words as [| w rest IH].
  - exists 0. cbn. repeat split; intros; lia.
  - destruct IH as (value & Hrange & Hdigits & Hfold).
    pose proof (half_nibble_range w) as Hd.
    set (d := Z.land (Z.shiftr w 6) 3) in *.
    set (n := length rest) in *.
    assert (0 < 4 ^ Z.of_nat n) as Hpow by (apply Z.pow_pos_nonneg; lia).
    exists (d * 4 ^ Z.of_nat n + value).
    cbn [length]. fold n. rewrite Nat2Z.inj_succ, Z.pow_succ_r by lia.
    split; [nia |]. split.
    + cbn [digits4 map]. fold d. f_equal.
      * rewrite Z.add_comm, Z.div_add by lia.
        rewrite (Z.div_small value) by lia. cbn [Z.add].
        apply Z.mod_small. lia.
      * rewrite digits4_above by lia. exact Hdigits.
    + intros usercode. cbn [fold_left].
      rewrite Hfold, usercode_step_digit. fold d. lia.
Qed.

Lemma getitem_inside (words : list Z) (index : nat) :
  (index < length words)%nat ->
  getitem words (Z.of_nat index) = nth_error words index.
Proof.
  intros H. unfold getitem.
  assert ((0 <=? Z.of_nat index) && (Z.of_nat index <? Z.of_nat (length words)) = true)
    as E by lia.
  rewrite E, Nat2Z.id. reflexivity.
Qed.

Lemma skipn_nth_error (words : list Z) :
  forall (start : nat) (word : Z),
    nth_error words start = Some word ->
    skipn start words = word :: skipn (S start) words.
Proof.
  induction words as [| w rest IH]; intros [| start] word H; cbn in H;
    try discriminate.
  - injection H as ->. reflexivity.
  - exact (IH start word H).
Qed.

Lemma getitems_slice (words : list Z) (count : nat) :
  forall start : nat,
    (start + count <= length words)%nat ->
    getitems words (map Z.of_nat (seq start count))
    = Some (firstn count (skipn start words)).
Proof.
  induction count as [| count IH]; intros start H; [reflexivity |].
  cbn [seq map getitems]. rewrite getitem_inside by lia.
  destruct (nth_error words start) as [word |] eqn:E.
  - rewrite (IH (S start)) by lia.
    rewrite (skipn_nth_error words start word E). reflexivity.
  - apply nth_error_None in E. lia.
Qed.

Lemma getitems_range_from (words : list Z) (start : Z) :
  0 <= start ->
  start + 8 <= Z.of_nat (length words) ->
  getitems words (range_from start 8)
  = Some (firstn 8 (skipn (Z.to_nat start) words)).
Proof.
  intros H0 H8. unfold range_from, range. rewrite map_map.
  change (Z.to_nat 8) with 8%nat.
  rewrite <- (getitems_slice words 8 (Z.to_nat start)) by lia.
  f_equal. cbn [seq map]. repeat (f_equal; try lia).
Qed.

(** X16. read-bit-usercode on a file of the size of the device, for a
    descriptor whose two USERCODE fields lie inside the bitstream: the
    tool does not fail, and the USERCODE it packs is the 32-bit number
    whose sixteen base-4 digits, most significant first, are the bits 7
    and 6 of the words usercode_low .. usercode_low+7 and then of the
    words usercode_high .. usercode_high+7. *)
Theorem read_bit_usercode_value
    (device : Device) (bit_file : list byte) (words : list Z) :
  read_words bit_file [] = Ok words ->
  Z.of_nat (length words) = bitstream_words device ->
  0 <= usercode_low device ->
  usercode_low device + 8 <= bitstream_words device ->
  0 <= usercode_high device ->
  usercode_high device + 8 <= bitstream_words device ->
  exists usercode b0 b1 b2 b3,
    read_bit_usercode device bit_file = inr [b0; b1; b2; b3] /\
    unpack_L b0 b1 b2 b3 = usercode /\
    0 <= usercode < 2 ^ 32 /\
    digits4 16 usercode
    = map (fun w => Z.land (Z.shiftr w 6) 3)
          (firstn 8 (skipn (Z.to_nat (usercode_low device)) words)
           ++ firstn 8 (skipn (Z.to_nat (usercode_high device)) words)).
Proof.
  intros Hread Hsize Hl0 Hl8 Hh0 Hh8. unfold read_bit_usercode.
  rewrite Hread.
  assert ((Z.of_nat (length words) =? bitstream_words device) = true) as E by lia.
  rewrite E. cbn [negb].
  rewrite (getitems_range_from words (usercode_low device)) by lia.
  rewrite (getitems_range_from words (usercode_high device)) by lia.
  cbv zeta.
  set (ws := firstn 8 (skipn (Z.to_nat (usercode_low device)) words)
             ++ firstn 8 (skipn (Z.to_nat (usercode_high device)) words)).
  assert (length ws = 16%nat) as Hlen.
  { unfold ws. rewrite length_app, !length_firstn, !length_skipn. lia. }
  destruct (usercode_fold ws) as (value & Hrange & Hdigits & Hfold).
  rewrite Hlen in Hrange, Hdigits. change (4 ^ Z.of_nat 16) with (2 ^ 32) in Hrange.
  rewrite (Hfold 0). cbn [Z.mul Z.add].
  destruct (pack_unpack value Hrange) as (b0 & b1 & b2 & b3 & Hpack & Hunpack).
  rewrite Hpack. exists value, b0, b1, b2, b3. auto.
Qed.

End UsercodeTool.

Lemma read_bit_usercode_value_witness :
  let words := repeat 0 90 ++ map (fun d => 64 * d) [1; 2; 3; 0; 1; 2; 3; 0]
               ++ repeat 0 7 ++ map (fun d => 64 * d + 5) [3; 3; 0; 0; 1; 1; 2; 2]
               ++ repeat 0 1507 in
  exists usercode b0 b1 b2 b3,
    read_bit_usercode xc9572xl (flat_map (fun w =>
        [byte_of_Z w; byte_of_Z (w / 2 ^ 8); byte_of_Z (w / 2 ^ 16);
         byte_of_Z (w / 2 ^ 24)]) words)
    = inr [b0; b1; b2; b3] /\
    unpack_L b0 b1 b2 b3 = usercode /\
    0 <= usercode < 2 ^ 32 /\
    digits4 16 usercode
    = map (fun w => Z.land (Z.shiftr w 6) 3)
          (firstn 8 (skipn (Z.to_nat (usercode_low xc9572xl)) words)
           ++ firstn 8 (skipn (Z.to_nat (usercode_high xc9572xl)) words)).
Proof.
  intros words.
  apply (read_bit_usercode_value xc9572xl _ words);
    try (vm_compute; reflexivity); vm_compute; intros; discriminate.
Defined.

Section ProgramBit.

Context {arch : Arch} {iface : TAP}.

(** *** The program-bit operation as a whole *)

Lemma instructions_app (rqs1 rqs2 : list request) :
  instructions (rqs1 ++ rqs2) = instructions rqs1 ++ instructions rqs2.
Proof. apply flat_map_app. Qed.

Lemma instructions_flat_map {A : Type} (f : A -> list request) (items : list A) :
  (forall item, instructions (f item) = []) ->
  instructions (flat_map f items) = [].
Proof.
  intros H. induction items as [| item rest IH]; [reflexivity |].
  cbn [flat_map]. rewrite instructions_app, H, IH. reflexivity.
Qed.

Lemma selected_requests (evs : list event) :
  selected evs = instructions (requests evs).
Proof.
  induction evs as [| ev rest IH]; [reflexivity |].
  unfold selected, requests, instructions in *.
  destruct ev as [[] rp | |]; cbn [flat_map app]; rewrite IH; reflexivity.
Qed.

Lemma program_run (words : list Z) (fast : bool) (t : tap) :
  reliable ->
  Z.of_nat (length words) mod 15 = 0 ->
  exists t1 evs,
    program 0 words fast t = (Ok tt, t1, evs) /\
    selected evs = if fast then [IR_FPGM; IR_FPGMI] else [IR_FPGM].
Proof.
  intros R Hw.
  rewrite (program_aligned 0 words fast t eq_refl Hw).
  assert (forall ws t0,
            exists t1 evs, _fpgm 0 ws t0 = (Ok tt, t1, evs) /\
                           selected evs = [IR_FPGM]) as Hfpgm.
  { intros ws t0. destruct (fpgm_run 0 ws t0 R) as (t1 & evs & Hrun & Hrq & _).
    exists t1, evs. split; [exact Hrun |].
    rewrite selected_requests, Hrq.
    change (instructions (?a :: ?l)) with (instructions [a] ++ instructions l).
    rewrite instructions_app, instructions_flat_map.
    - destruct (is_empty ws); reflexivity.
    - intros [i word]. cbv zeta. destruct (i mod 15 =? 14); reflexivity. }
  destruct fast; [| apply Hfpgm].
  destruct (Hfpgm (firstn 15 words) t) as (t1 & evs1 & Hrun1 & Hsel1).
  destruct (fpgmi_run (skipn 15 words) t1 R) as (t2 & evs2 & Hrun2 & Hrq2).
  exists t2, (evs1 ++ evs2). split; [exact (bind_Ok _ _ _ _ _ _ _ _ _ Hrun1 Hrun2) |].
  rewrite selected_app, Hsel1, (selected_requests evs2), Hrq2.
  change (instructions (?a :: ?l)) with (instructions [a] ++ instructions l).
  rewrite instructions_flat_map; [reflexivity |].
  intros [i word]. destruct (i mod 15 =? 14); reflexivity.
Qed.

(** X17. program-bit with a file of the right size, on a transport that
    does not fail: when the word count of the device is a multiple of 15
    the operation returns normally whatever the device answers to the
    readbacks, and the instructions selected are IDCODE, USERCODE, ISPEN,
    FPGM (then FPGMI unless --slow) and ISPEX; when it is not, the
    assertion of [program] fails after ISPEN, and ISPEX still follows. *)
Theorem interact_program_bit
    (fuel : nat) (args : Args) (device : Device) (words : list Z)
    (t t0 : tap) (evs0 : list event) :
  reliable ->
  operation args = Some program_bit ->
  interact_identify t = (Ok device, t0, evs0) ->
  read_words (bit_file args) [] = Ok words ->
  Z.of_nat (length words) = bitstream_words device ->
  exists t1 evs,
    interact fuel args t
    = (if bitstream_words device mod 15 =? 0 then Ok tt else Raise AssertionError,
       t1, evs) /\
    selected evs
    = [IR_IDCODE; IR_USERCODE; IR_ISPEN]
      ++ (if bitstream_words device mod 15 =? 0
          then (if slow args then [IR_FPGM] else [IR_FPGM; IR_FPGMI])
          else [])
      ++ [IR_ISPEX].
Proof.
  intros R Hop Hid Hread Hsize.
  set (t1 := next (Rq_write_ir IR_ISPEN) t0).
  assert (exists t2 evs2,
            program 0 words (negb (slow args)) t1
            = (if bitstream_words device mod 15 =? 0
               then Ok tt else Raise AssertionError, t2, evs2) /\
            selected evs2
            = if bitstream_words device mod 15 =? 0
              then (if slow args then [IR_FPGM] else [IR_FPGM; IR_FPGMI])
              else []) as (t2 & evs2 & Hprog & Hsel).
  { destruct (Z.eqb_spec (bitstream_words device mod 15) 0) as [E | E].
    - destruct (program_run words (negb (slow args)) t1 R) as (t2 & evs2 & Hrun & Hsel);
        [rewrite Hsize; exact E |].
      exists t2, evs2. split; [exact Hrun |].
      rewrite Hsel. destruct (slow args); reflexivity.
    - exists t1, []. split; [| reflexivity].
      unfold program, assert_, BLOCK_WORDS. rewrite Hsize.
      assert ((bitstream_words device mod 15 =? 0) = false) as E' by lia.
      rewrite E'. reflexivity. }
  set (out := if bitstream_words device mod 15 =? 0
              then Ok tt else Raise AssertionError) in *.
  assert (interact_try fuel device args t0
          = (out, t2,
             Tap (Rq_write_ir IR_ISPEN) (Done (answer (Rq_write_ir IR_ISPEN) t0))
             :: evs2)) as Htry.
  { unfold interact_try. rewrite Hop.
    cbn [operation_is Operation_eqb when orb].
    unfold bind at 1. cbn [ret].
    unfold bind at 1. unfold bind at 1. unfold lift. rewrite Hread.
    assert ((Z.of_nat (length words) =? bitstream_words device) = true) as E by lia.
    rewrite E. cbn [negb ret app].
    unfold bind at 1. unfold bind at 1.
    unfold programming_enable, write_ir.
    rewrite (unit_call_reliable _ _ R). fold t1. rewrite Hprog.
    unfold out. destruct (bitstream_words device mod 15 =? 0); cbn;
      rewrite ?app_nil_r; reflexivity. }
  assert (out <> Diverge) as Hout by (unfold out; destruct (_ =? _); discriminate).
  pose proof (try_finally_disable _ _ _ _ _ Htry Hout) as Hfin.
  rewrite (lower_reliable _ _ R) in Hfin. cbn [fst snd] in Hfin.
  eexists _, _. split.
  - unfold interact. eapply bind_Ok; [exact Hid | exact Hfin].
  - rewrite selected_app, (selected_requests evs0),
      (interact_identify_requests _ _ _ _ Hid).
    change (selected ((?a :: evs2) ++ ?b))
      with (selected [a] ++ selected (evs2 ++ b)).
    rewrite selected_app, Hsel. reflexivity.
Qed.

End ProgramBit.

Lemma interact_program_bit_witness :
  let words := map Z.of_nat (seq 0 1620) in
  let args :=
    mkArgs (Some program_bit) false
           (flat_map (fun w => [byte_of_Z w; byte_of_Z (w / 2 ^ 8);
                                byte_of_Z (w / 2 ^ 16); byte_of_Z (w / 2 ^ 24)])
                     words) in
  exists t1 evs,
    interact 0 args (session [])
    = (if bitstream_words xc9572xl mod 15 =? 0 then Ok tt else Raise AssertionError,
       t1, evs) /\
    selected evs
    = [IR_IDCODE; IR_USERCODE; IR_ISPEN]
      ++ (if bitstream_words xc9572xl mod 15 =? 0
          then (if slow args then [IR_FPGM] else [IR_FPGM; IR_FPGMI])
          else [])
      ++ [IR_ISPEX].
Proof.
  intros words args.
  apply (@interact_program_bit layout replay 0 args xc9572xl words
           (session []) [] (snd (interact_identify (session []))) replay_reliable);
    vm_compute; reflexivity.
Defined.

(** ** MIPS EJTAG *)

(** X18. The per-breakpoint debug registers do not collide: for
    breakpoint numbers below 16 (the BCN field has four bits), two of the
    EJTAG 2.5+ address functions give the same address only when they are
    the same function at the same number, and likewise for the EJTAG
    1.x/2.0 ones; all these addresses lie in the DRSEG segment, below
    2^64. *)
Theorem breakpoint_registers_disjoint (n m : Z) :
  0 <= n < 16 ->
  0 <= m < 16 ->
  (forall f g, In f breakpoint_registers -> In g breakpoint_registers ->
     f n = g m -> f = g /\ n = m) /\
  (forall f g, In f breakpoint_registers_v1 -> In g breakpoint_registers_v1 ->
     f n = g m -> f = g /\ n = m) /\
  (forall f, In f (breakpoint_registers ++ breakpoint_registers_v1) ->
     DRSEG_addr < f n < 2 ^ 64).
Proof.
  intros Hn Hm. split; [| split].
  - intros f g Hf Hg. cbn in Hf, Hg.
    repeat (destruct Hf as [<- | Hf]); try contradiction;
      repeat (destruct Hg as [<- | Hg]); try contradiction;
      cbv delta [DRSEG_IBAn_addr DRSEG_IBMn_addr DRSEG_IBASIDn_addr DRSEG_IBCn_addr
                 DRSEG_IBCCn_addr DRSEG_IBPCn_addr DRSEG_DBAn_addr DRSEG_DBMn_addr
                 DRSEG_DBASIDn_addr DRSEG_DBCn_addr DRSEG_DBVn_addr DRSEG_DBCCn_addr
                 DRSEG_DBPCn_addr DRSEG_addr] beta;
      intros E; first [split; [reflexivity | lia] | lia].
  - intros f g Hf Hg. cbn in Hf, Hg.
    repeat (destruct Hf as [<- | Hf]); try contradiction;
      repeat (destruct Hg as [<- | Hg]); try contradiction;
      cbv delta [DRSEG_IBAn_addr_v1 DRSEG_IBCn_addr_v1 DRSEG_IBMn_addr_v1
                 DRSEG_DBAn_addr_v1 DRSEG_DBCn_addr_v1 DRSEG_DBMn_addr_v1
                 DRSEG_DBVn_addr_v1 DRSEG_addr] beta;
      intros E; first [split; [reflexivity | lia] | lia].
  - intros f Hf. cbn in Hf.
    repeat (destruct Hf as [<- | Hf]); try contradiction;
      cbv delta [DRSEG_IBAn_addr DRSEG_IBMn_addr DRSEG_IBASIDn_addr DRSEG_IBCn_addr
                 DRSEG_IBCCn_addr DRSEG_IBPCn_addr DRSEG_DBAn_addr DRSEG_DBMn_addr
                 DRSEG_DBASIDn_addr DRSEG_DBCn_addr DRSEG_DBVn_addr DRSEG_DBCCn_addr
                 DRSEG_DBPCn_addr DRSEG_IBAn_addr_v1 DRSEG_IBCn_addr_v1
                 DRSEG_IBMn_addr_v1 DRSEG_DBAn_addr_v1 DRSEG_DBCn_addr_v1
                 DRSEG_DBMn_addr_v1 DRSEG_DBVn_addr_v1 DRSEG_addr] beta;
      lia.
Qed.

Lemma breakpoint_registers_disjoint_witness :
  (DRSEG_IBCn_addr 15 = DRSEG_IBCn_addr 15 ->
   DRSEG_IBCn_addr = DRSEG_IBCn_addr /\ 15 = 15) /\
  DRSEG_addr < DRSEG_DBPCn_addr 15 < 2 ^ 64.
Proof.
  destruct (breakpoint_registers_disjoint 15 15) as (H25 & _ & Hrange); [lia | lia |].
  split.
  - apply (H25 DRSEG_IBCn_addr DRSEG_IBCn_addr); cbn; tauto.
  - apply (Hrange DRSEG_DBPCn_addr). cbn. tauto.
Defined.

Section ReadAndVerify.

Context {arch : Arch} {iface : TAP}.

(** *** The read-bit and verify-bit operations as a whole *)

Lemma first_difference (l1 l2 : list Z) :
  length l1 = length l2 ->
  l1 <> l2 ->
  exists prefix x y rest1 rest2,
    l1 = prefix ++ x :: rest1 /\ l2 = prefix ++ y :: rest2 /\ x <> y.
Proof.
  revert l2. induction l1 as [| a l1 IH]; intros [| b l2] Hlen Hne;
    try discriminate; [congruence |].
  destruct (Z.eq_dec a b) as [-> | Hab].
  - destruct (IH l2) as (prefix & x & y & r1 & r2 & -> & -> & Hxy).
    + cbn in Hlen. lia.
    + congruence.
    + exists (b :: prefix), x, y, r1, r2. repeat split; auto.
  - exists [], a, b, l1, l2. repeat split; auto.
Qed.

(* A read leaves nothing but TAP traffic: no warning and no file write. *)
Lemma taps_bind {A B : Type} (m : M A) (k : A -> M B) :
  (forall t, forallb is_tap (snd (m t)) = true) ->
  (forall a t, forallb is_tap (snd (k a t)) = true) ->
  forall t, forallb is_tap (snd (bind m k t)) = true.
Proof.
  intros Hm Hk t. unfold bind. specialize (Hm t).
  destruct (m t) as [[[a | e |] t1] evs1]; try exact Hm.
  specialize (Hk a t1). destruct (k a t1) as [[out t2] evs2].
  cbn [snd] in *. rewrite forallb_app, Hm, Hk. reflexivity.
Qed.

Lemma taps_call (rq : request) (t : tap) : forallb is_tap (snd (call rq t)) = true.
Proof. unfold call. destruct (lower rq t) as [[bits |] t1]; reflexivity. Qed.

Lemma taps_unit_call (rq : request) (t : tap) :
  forallb is_tap (snd ((call rq ;; ret tt) t)) = true.
Proof.
  revert t. apply taps_bind; [apply taps_call | reflexivity].
Qed.

Lemma taps_fvfy (address count : Z) (t : tap) :
  forallb is_tap (snd (_fvfy address count t)) = true.
Proof.
  revert t. unfold _fvfy, write_ir, write_dr. cbv zeta.
  apply taps_bind; [apply taps_unit_call | intros _].
  apply taps_bind; [apply taps_unit_call | intros _].
  generalize (@nil Z) as words.
  induction (range count) as [| offset rest IH]; intros words t; [reflexivity |].
  cbn [for_acc]. revert t. apply taps_bind; [| intros; apply IH].
  unfold _fvfy_word, exchange_dr. cbv zeta.
  apply taps_bind; [apply taps_call | reflexivity].
Qed.

Lemma taps_fvfyi (fuel : nat) (count : Z) (t : tap) :
  forallb is_tap (snd (_fvfyi fuel count t)) = true.
Proof.
  revert t. unfold _fvfyi, write_ir.
  apply taps_bind; [apply taps_unit_call | intros _].
  generalize (@nil Z) as words. generalize 0 as index.
  induction fuel as [| fuel IH]; intros index words t; cbn [_fvfyi_loop];
    destruct (index <? count); try reflexivity.
  revert t. apply taps_bind; [apply taps_call |].
  intros bits t. destruct (DR_ISDATA.valid _); apply IH.
Qed.

Lemma read_writes_nothing (fuel : nat) (address count : Z) (fast : bool) (t : tap) :
  written (snd (read fuel address count fast t)) = [].
Proof.
  assert (forallb is_tap (snd (read fuel address count fast t)) = true) as H.
  { unfold read. destruct fast; [| apply taps_fvfy].
    revert t. apply taps_bind; intros; [apply taps_fvfy | apply taps_fvfyi]. }
  induction (snd (read fuel address count fast t)) as [| ev rest IH]; [reflexivity |].
  cbn [forallb] in H. apply andb_prop in H. destruct H as [Hev Hrest].
  destruct ev; try discriminate. exact (IH Hrest).
Qed.

(** X19. read-bit, once the device is identified and on a transport that
    does not fail: when the read returns words of 32 bits, [interact]
    returns normally, the bytes written to the file read back as exactly
    these words, and the instructions selected are those of the
    identification, ISPEN, those of the read, and ISPEX. *)
Theorem interact_read_bit
    (fuel : nat) (args : Args) (device : Device) (device_words : list Z)
    (t t0 t2 : tap) (evs0 evs2 : list event) :
  reliable ->
  operation args = Some read_bit ->
  interact_identify t = (Ok device, t0, evs0) ->
  read fuel 0 (bitstream_words device) (negb (slow args))
       (next (Rq_write_ir IR_ISPEN) t0)
  = (Ok device_words, t2, evs2) ->
  Forall (fun word => 0 <= word < 2 ^ 32) device_words ->
  exists t3 evs,
    interact fuel args t = (Ok tt, t3, evs) /\
    read_words (written evs) [] = Ok device_words /\
    selected evs
    = [IR_IDCODE; IR_USERCODE; IR_ISPEN] ++ selected evs2 ++ [IR_ISPEX].
Proof.
  intros R Hop Hid Hread Hrange.
  destruct (write_words_run device_words t2 Hrange)
    as (evsw & Hwrite & Hrqw & _ & Hback).
  assert (interact_try fuel device args t0
          = (Ok tt, t2,
             Tap (Rq_write_ir IR_ISPEN) (Done (answer (Rq_write_ir IR_ISPEN) t0))
             :: evs2 ++ evsw)) as Htry.
  { unfold interact_try. rewrite Hop.
    cbn [operation_is Operation_eqb when orb].
    change (for_ ?ws (fun word => data <- lift (pack_L word) ;; emit (FileWrite data)))
      with (for_ ws write_word).
    unfold bind at 1. unfold bind at 1.
    unfold programming_enable, write_ir.
    rewrite (unit_call_reliable _ _ R).
    unfold bind at 1. rewrite Hread, Hwrite.
    unfold bind, ret. cbn [app]. rewrite !app_nil_r. reflexivity. }
  pose proof (try_finally_disable _ _ _ _ _ Htry ltac:(discriminate)) as Hfin.
  rewrite (lower_reliable _ _ R) in Hfin. cbn [fst snd] in Hfin.
  eexists _, _. split; [| split].
  - unfold interact. eapply bind_Ok; [exact Hid | exact Hfin].
  - assert (written evs0 = []) as W0.
    { clear - Hid. revert Hid.
      unfold interact_identify, identify, read_usercode, write_ir, read_dr,
        bind, call, ret.
      destruct (lower (Rq_write_ir IR_IDCODE) t) as [[b1 |] t1]; [| discriminate].
      destruct (lower (Rq_read_dr 32) t1) as [[b2 |] t2']; [| discriminate].
      destruct (devices _ _) as [dev |]; [| discriminate].
      destruct (lower (Rq_write_ir IR_USERCODE) t2') as [[b3 |] t3]; [| discriminate].
      destruct (lower (Rq_read_dr 32) t3) as [[b4 |] t4]; [| discriminate].
      intros H. injection H as _ _ <-. reflexivity. }
    assert (written evs2 = []) as W2.
    { pose proof (read_writes_nothing fuel 0 (bitstream_words device)
                    (negb (slow args)) (next (Rq_write_ir IR_ISPEN) t0)) as H.
      rewrite Hread in H. exact H. }
    cbn [snd].
    unfold written in *. rewrite !flat_map_app, W0.
    cbn [flat_map app]. rewrite flat_map_app, W2. cbn [app].
    rewrite app_nil_r. exact (Hback []).
  - rewrite selected_app, (selected_requests evs0),
      (interact_identify_requests _ _ _ _ Hid).
    change (selected ((?a :: ?l) ++ ?b)) with (selected [a] ++ selected (l ++ b)).
    rewrite !selected_app, (selected_requests evsw), Hrqw.
    cbn [app instructions flat_map]. rewrite app_nil_r. reflexivity.
Qed.

(** X20. verify-bit, once the device is identified and on a transport
    that does not fail, with a file of the size of the device: when the
    read returns as many words as the file holds, [interact] returns
    normally exactly when the words read are the words of the file;
    otherwise it raises the verification error at the first offset where
    they differ.  In both cases ISPEX is the last instruction selected. *)
Theorem interact_verify_bit
    (fuel : nat) (args : Args) (device : Device) (words device_words : list Z)
    (t t0 t2 : tap) (evs0 evs2 : list event) :
  reliable ->
  operation args = Some verify_bit ->
  interact_identify t = (Ok device, t0, evs0) ->
  read_words (bit_file args) [] = Ok words ->
  Z.of_nat (length words) = bitstream_words device ->
  read fuel 0 (bitstream_words device) (negb (slow args))
       (next (Rq_write_ir IR_ISPEN) t0)
  = (Ok device_words, t2, evs2) ->
  length device_words = length words ->
  exists out t3 evs,
    interact fuel args t = (out, t3, evs) /\
    (out = Ok tt <-> device_words = words) /\
    (device_words <> words ->
     exists prefix x y rest1 rest2,
       device_words = prefix ++ x :: rest1 /\
       words = prefix ++ y :: rest2 /\
       x <> y /\
       out = Raise (GlasgowAppletError
                      (verification_failed (Z.of_nat (length prefix))))) /\
    selected evs
    = [IR_IDCODE; IR_USERCODE; IR_ISPEN] ++ selected evs2 ++ [IR_ISPEX].
Proof.
  intros R Hop Hid Hfile Hsize Hread Hlen.
  assert (exists out,
            for_ (enumerate (combine device_words words)) verify_word t2
            = (out, t2, []) /\
            out <> Diverge /\
            (out = Ok tt <-> device_words = words) /\
            (device_words <> words ->
             exists prefix x y rest1 rest2,
               device_words = prefix ++ x :: rest1 /\
               words = prefix ++ y :: rest2 /\
               x <> y /\
               out = Raise (GlasgowAppletError
                              (verification_failed (Z.of_nat (length prefix))))))
    as (out & Hcmp & Hout & Hiff & Hdiff).
  { destruct (list_eq_dec Z.eq_dec device_words words) as [-> | Hne].
    - exists (Ok tt). split.
      + pose proof (verify_equal_from 0 words [] [] t2 (or_introl eq_refl)) as H.
        rewrite !app_nil_r in H. exact H.
      + split; [discriminate |]. split; [tauto | congruence].
    - destruct (first_difference _ _ Hlen Hne)
        as (prefix & x & y & r1 & r2 & -> & -> & Hxy).
      eexists. split; [exact (verify_differ_from 0 prefix r1 r2 x y t2 Hxy) |].
      split; [discriminate |]. split; [split; [discriminate | congruence] |].
      intros _. exists prefix, x, y, r1, r2. auto. }
  assert (interact_try fuel device args t0
          = (out, t2,
             Tap (Rq_write_ir IR_ISPEN) (Done (answer (Rq_write_ir IR_ISPEN) t0))
             :: evs2)) as Htry.
  { unfold interact_try. rewrite Hop.
    cbn [operation_is Operation_eqb when orb].
    unfold bind at 1. cbn [ret].
    unfold bind at 1. unfold bind at 1. unfold lift. rewrite Hfile.
    assert ((Z.of_nat (length words) =? bitstream_words device) = true) as E by lia.
    rewrite E. cbn [negb ret app].
    unfold bind at 1. cbn [ret].
    unfold bind at 1. unfold bind at 1.
    unfold programming_enable, write_ir.
    rewrite (unit_call_reliable _ _ R).
    unfold bind at 1. rewrite Hread, Hcmp.
    destruct out as [[] | e |]; [| | congruence];
      unfold bind, ret; cbn [app]; rewrite ?app_nil_r; reflexivity. }
  pose proof (try_finally_disable _ _ _ _ _ Htry Hout) as Hfin.
  rewrite (lower_reliable _ _ R) in Hfin. cbn [fst snd] in Hfin.
  exists out. eexists _, _. split; [| split; [exact Hiff | split; [exact Hdiff |]]].
  - unfold interact. eapply bind_Ok; [exact Hid | exact Hfin].
  - rewrite selected_app, (selected_requests evs0),
      (interact_identify_requests _ _ _ _ Hid).
    change (selected ((?a :: ?l) ++ ?b)) with (selected [a] ++ selected (l ++ b)).
    rewrite !selected_app. reflexivity.
Qed.

End ReadAndVerify.

Lemma interact_read_bit_witness :
  exists t3 evs,
    interact 1620 (mkArgs (Some read_bit) false [])
             (session (repeat (isdata_bits true 7) 1620))
    = (Ok tt, t3, evs) /\
    read_words (written evs) [] = Ok (repeat 7 1620) /\
    selected evs
    = [IR_IDCODE; IR_USERCODE; IR_ISPEN; IR_FVFY; IR_FVFYI; IR_ISPEX].
Proof.
  destruct (@interact_read_bit layout replay 1620
              (mkArgs (Some read_bit) false []) xc9572xl (repeat 7 1620)
              (session (repeat (isdata_bits true 7) 1620))
              (repeat (isdata_bits true 7) 1620) []
              (snd (interact_identify (session (repeat (isdata_bits true 7) 1620))))
              (snd (@read layout replay 1620 0 1620 true (repeat (isdata_bits true 7) 1620)))
              replay_reliable)
    as (t3 & evs & Hrun & Hback & Hsel).
  - reflexivity.
  - vm_compute. reflexivity.
  - vm_compute. reflexivity.
  - apply Forall_forall. intros x Hx. apply repeat_spec in Hx. subst x. lia.
  - exists t3, evs. split; [exact Hrun |]. split; [exact Hback |].
    rewrite Hsel. vm_compute. reflexivity.
Defined.

Lemma interact_verify_bit_witness :
  let bit_file :=
    flat_map (fun w => [byte_of_Z w; byte_of_Z (w / 2 ^ 8);
                        byte_of_Z (w / 2 ^ 16); byte_of_Z (w / 2 ^ 24)])
             (repeat 7 1620) in
  exists out t3 evs,
    interact 1620 (mkArgs (Some verify_bit) false bit_file)
             (session (repeat (isdata_bits true 7) 1619 ++ [isdata_bits true 8]))
    = (out, t3, evs) /\
    out <> Ok tt /\
    selected evs
    = [IR_IDCODE; IR_USERCODE; IR_ISPEN; IR_FVFY; IR_FVFYI; IR_ISPEX].
Proof.
  intros bit_file.
  destruct (@interact_verify_bit layout replay 1620
              (mkArgs (Some verify_bit) false bit_file) xc9572xl
              (repeat 7 1620) (repeat 7 1619 ++ [8])
              (session (repeat (isdata_bits true 7) 1619 ++ [isdata_bits true 8]))
              (repeat (isdata_bits true 7) 1619 ++ [isdata_bits true 8]) []
              (snd (interact_identify
                      (session (repeat (isdata_bits true 7) 1619
                                ++ [isdata_bits true 8]))))
              (snd (@read layout replay 1620 0 1620 true
                      (repeat (isdata_bits true 7) 1619 ++ [isdata_bits true 8])))
              replay_reliable)
    as (out & t3 & evs & Hrun & Hiff & _ & Hsel).
  - reflexivity.
  - vm_compute. reflexivity.
  - vm_compute. reflexivity.
  - vm_compute. reflexivity.
  - vm_compute. reflexivity.
  - vm_compute. reflexivity.
  - exists out, t3, evs. split; [exact Hrun |]. split.
    + intros E. apply Hiff in E.
      apply (f_equal (fun l => nth 1619 l 0)) in E. vm_compute in E. discriminate.
    + rewrite Hsel. vm_compute. reflexivity.
Defined.
